(** * go-struct-to-ts: a shallow embedding of the Go-to-TypeScript translator

    The development follows the two source files of package [go2ts]:
    - [convert.go]: [convertType], [writeType], [validJSName], [writeFields],
      [Convert];
    - the aggregation file: [ReadTypes], [addNode], [parseFile],
      [findStructs], [createPackage].

    Go strings are byte sequences and are modelled by [string] (a list of
    8-bit characters). A [strings.Builder] is modelled by its content, and a
    write appends to it. A run-time panic (nil dereference, slice out of
    range, failed type assertion) is an explicit outcome. *)

From Stdlib Require Import ZArith NArith Ascii Lia.
From stdpp Require Import base gmap strings list.

Set Warnings "-register-all".
Local Open Scope Z_scope.

(** ** Characters that cannot be written inside a literal *)

Definition nl : string := String (ascii_of_nat 10) EmptyString.
Definition tab : string := String (ascii_of_nat 9) EmptyString.
Definition dq : string := String (ascii_of_nat 34) EmptyString.
Definition bq : string := String (ascii_of_nat 96) EmptyString.
Definition sq : string := String (ascii_of_nat 39) EmptyString.

(** ** Outcomes: a Go call either returns or panics *)

Inductive Res (A : Type) : Type :=
| Done (a : A)
| Panic (why : string).
Arguments Done {A} a.
Arguments Panic {A} why.

Definition bind {A B : Type} (m : Res A) (k : A -> Res B) : Res B :=
  match m with
  | Done a => k a
  | Panic w => Panic w
  end.

#[global] Instance Res_bind : MBind Res := fun A B k m => bind m k.
#[global] Instance Res_ret : MRet Res := @Done.

(** ** Go errors

    [Bubble] is [logging.Bubble] of the external package go-logging: it wraps
    a cause, possibly nil, with a context string. The source returns
    [logging.Bubble(nil, ...)] as its failure value when the root directory
    name is unset, so the result is a non-nil error whatever the cause. *)

Inductive error : Type :=
| LibErr (pkg msg : string)
| Errorf (msg : string)
| Bubble (cause : option error) (msg : string).

(** ** The fragment of go/ast that the type compiler inspects

    [OtherExpr] stands for every expression node that [writeType] has no case
    for (function types, channel types, parenthesised types, single-index
    generic instantiations, ...); it records the dynamic type name printed by
    the %T verb. A field's [Names] lists the names of its identifiers; an
    absent (nil) identifier and an empty name are skipped alike by the
    source, so a nil entry is represented by the empty name. *)

Inductive Expr : Type :=
| Ident (Name : string)
| StarExpr (X : Expr)
| ArrayType (Elt : Expr)
| StructType (Fields : list Field)
| SelectorExpr (X : Expr) (Sel : string)
| MapType (Key Value : Expr)
| InterfaceType
| IndexListExpr
| OtherExpr (dynType : string)
with Field : Type :=
| mkField (Names : list string) (Type_ : Expr) (Tag : option string).

Definition Names (f : Field) : list string :=
  match f with mkField n _ _ => n end.
Definition Type_ (f : Field) : Expr :=
  match f with mkField _ t _ => t end.
Definition Tag (f : Field) : option string :=
  match f with mkField _ _ t => t end.

(** ** Library functions of the Go runtime that are kept abstract

    - [unicode_L], [unicode_N]: the Unicode tables behind the regexp classes
      \pL and \pN, consulted only for code points from 128 on;
    - [Sprint_s]: the %s rendering by package fmt of an AST node that is not
      an identifier (a reflective dump of the node);
    - [Unquote_escaped]: [strconv.Unquote] on a double-quoted literal that
      contains a backslash, a newline or invalid UTF-8. *)

Class GoLib : Type := {
  unicode_L : N -> bool;
  unicode_N : N -> bool;
  Sprint_s : Expr -> string;
  Unquote_escaped : string -> option string;
}.

(** ** Byte-level string helpers (packages strings, unicode/utf8, path/filepath) *)

Module GoString.

Definition byte (c : ascii) : N := N_of_ascii c.

Definition len (s : string) : nat := String.length s.

(** s[0], when there is one *)
Definition head (s : string) : option N :=
  match s with
  | EmptyString => None
  | String c _ => Some (byte c)
  end.

(** s[n:] for n within range *)
Fixpoint drop (n : nat) (s : string) : string :=
  match n, s with
  | O, _ => s
  | S n', String _ s' => drop n' s'
  | S _, EmptyString => EmptyString
  end.

(** [strings.HasPrefix] *)
Definition HasPrefix (s prefix : string) : bool := String.prefix prefix s.

(** [strings.Replace(s, old, new, 1)]: the leftmost occurrence of [old] is
    replaced; an empty [old] matches at the very start. *)
Fixpoint Replace1 (s old new : string) : string :=
  if HasPrefix s old then new +:+ drop (len old) s
  else match s with
       | EmptyString => EmptyString
       | String c s' => String c (Replace1 s' old new)
       end.

(** leading bytes equal to [c] removed *)
Fixpoint TrimLeftByte (c : ascii) (s : string) : string :=
  match s with
  | String a s' => if Ascii.eqb a c then TrimLeftByte c s' else s
  | EmptyString => EmptyString
  end.

(** [strings.Trim(s, cutset)] for a cutset of the single byte [c] *)
Definition TrimByte (c : ascii) (s : string) : string :=
  String.rev (TrimLeftByte c (String.rev (TrimLeftByte c s))).

(** [strings.Split(s, sep)] for a separator of the single byte [c];
    the result is never empty. *)
Fixpoint SplitByte (c : ascii) (s : string) : list string :=
  match s with
  | EmptyString => [EmptyString]
  | String a s' =>
      if Ascii.eqb a c then EmptyString :: SplitByte c s'
      else match SplitByte c s' with
           | w :: ws => String a w :: ws
           | [] => [String a EmptyString]
           end
  end.

Fixpoint contains (c : ascii) (s : string) : bool :=
  match s with
  | EmptyString => false
  | String a s' => Ascii.eqb a c || contains c s'
  end.

(** *** UTF-8 decoding, as [utf8.DecodeRuneInString] *)

Definition RuneError : N := 65533%N.

Definition between (lo hi x : N) : bool := ((lo <=? x) && (x <=? hi))%N.
Definition cont (x : N) : bool := between 128 191 x.

(** The code point at the start of [s], its width in bytes and the rest of
    the string. An invalid or truncated encoding yields [RuneError] of
    width 1. The caller makes sure that [s] is not empty. *)
Definition DecodeRune (s : string) : N * nat * string :=
  match s with
  | EmptyString => (RuneError, O, EmptyString)
  | String c0 s1 =>
      let b0 := byte c0 in
      let bad := (RuneError, 1%nat, s1) in
      if (b0 <? 128)%N then (b0, 1%nat, s1)
      else if between 194 223 b0 then
        match s1 with
        | String c1 s2 =>
            let b1 := byte c1 in
            if cont b1 then (((b0 - 192) * 64 + (b1 - 128))%N, 2%nat, s2)
            else bad
        | _ => bad
        end
      else if between 224 239 b0 then
        match s1 with
        | String c1 (String c2 s3) =>
            let b1 := byte c1 in
            let b2 := byte c2 in
            let lo := if (b0 =? 224)%N then 160%N else 128%N in
            let hi := if (b0 =? 237)%N then 159%N else 191%N in
            if between lo hi b1 && cont b2
            then (((b0 - 224) * 4096 + (b1 - 128) * 64 + (b2 - 128))%N,
                  3%nat, s3)
            else bad
        | _ => bad
        end
      else if between 240 244 b0 then
        match s1 with
        | String c1 (String c2 (String c3 s4)) =>
            let b1 := byte c1 in
            let b2 := byte c2 in
            let b3 := byte c3 in
            let lo := if (b0 =? 240)%N then 144%N else 128%N in
            let hi := if (b0 =? 244)%N then 143%N else 191%N in
            if between lo hi b1 && cont b2 && cont b3
            then (((b0 - 240) * 262144 + (b1 - 128) * 4096
                   + (b2 - 128) * 64 + (b3 - 128))%N, 4%nat, s4)
            else bad
        | _ => bad
        end
      else bad
  end.

(** The runes of [s], each with its encoded width. The fuel is the byte
    length of [s], which is enough since every step consumes a byte. *)
Fixpoint runes_go (fuel : nat) (s : string) : list (N * nat) :=
  match fuel, s with
  | O, _ => []
  | _, EmptyString => []
  | S fuel', _ =>
      let '(r, w, rest) := DecodeRune s in (r, w) :: runes_go fuel' rest
  end.

Definition runes (s : string) : list (N * nat) := runes_go (len s) s.

(** [utf8.ValidString] *)
Definition ValidString (s : string) : bool :=
  forallb (fun rw => negb ((fst rw =? RuneError)%N && Nat.eqb (snd rw) 1))
          (runes s).

(** *** [unicode.IsSpace] and [strings.TrimSpace] *)

Definition IsSpace (r : N) : bool :=
  (between 9 13 r || (r =? 32) || (r =? 133) || (r =? 160) || (r =? 5760)
   || between 8192 8202 r || (r =? 8232) || (r =? 8233) || (r =? 8239)
   || (r =? 8287) || (r =? 12288))%N.

Fixpoint TrimLeftSpace_go (fuel : nat) (s : string) : string :=
  match fuel, s with
  | O, _ => s
  | _, EmptyString => EmptyString
  | S fuel', _ =>
      let '(r, _, rest) := DecodeRune s in
      if IsSpace r then TrimLeftSpace_go fuel' rest else s
  end.

(** Total byte width of the white-space runes at the end of a rune list
    given in reverse order. *)
Fixpoint trailing_space_width (rs : list (N * nat)) : nat :=
  match rs with
  | (r, w) :: rs' => if IsSpace r then (w + trailing_space_width rs')%nat else O
  | [] => O
  end.

Fixpoint take (n : nat) (s : string) : string :=
  match n, s with
  | S n', String c s' => String c (take n' s')
  | _, _ => EmptyString
  end.

Definition TrimSpace (s : string) : string :=
  let s1 := TrimLeftSpace_go (len s) s in
  take (len s1 - trailing_space_width (rev (runes s1)))%nat s1.

(** *** [filepath.Base] and [filepath.Ext] with the separator "/" *)

Definition slash : ascii := ascii_of_nat 47.
Definition dot : ascii := ascii_of_nat 46.

(** the part of a reversed path before its first separator *)
Fixpoint upto_slash (s : string) : string :=
  match s with
  | EmptyString => EmptyString
  | String c s' => if Ascii.eqb c slash then EmptyString else String c (upto_slash s')
  end.

Definition Base (path : string) : string :=
  match path with
  | EmptyString => "."
  | _ =>
      match TrimLeftByte slash (String.rev path) with
      | EmptyString => "/"
      | r => String.rev (upto_slash r)
      end
  end.

(** scans a reversed path for the last dot of the final element; [acc] is
    what has been passed so far, in source order *)
Fixpoint Ext_go (r : string) (acc : string) : string :=
  match r with
  | EmptyString => EmptyString
  | String c r' =>
      if Ascii.eqb c slash then EmptyString
      else if Ascii.eqb c dot then String c acc
      else Ext_go r' (String c acc)
  end.

Definition Ext (path : string) : string := Ext_go (String.rev path) EmptyString.

End GoString.


(** ** The struct tag parser (external package structtag)

    [Parse] follows the tag scanner of package reflect, as the library does:
    key, colon, double-quoted value, repeated, separated by spaces. The value
    is unquoted and split at commas into a name and options. *)

Module structtag.

Record Tag : Type := mkTag {
  Key : string;
  Name : string;
  Options : list string;
}.

Definition errTagSyntax : error := LibErr "structtag" "bad syntax for struct tag pair".
Definition errTagKeySyntax : error := LibErr "structtag" "bad syntax for struct tag key".
Definition errTagValueSyntax : error := LibErr "structtag" "bad syntax for struct tag value".

(** What [Parse] returns: an error, a nil pointer with a nil error (a tag
    made of spaces only), or the tags. *)
Inductive Parsed : Type :=
| ParseErr (e : error)
| ParseNil
| ParseOk (tags : list Tag).

Definition keyByte (c : ascii) : bool :=
  let b := GoString.byte c in
  ((32 <? b) && negb (b =? 58) && negb (b =? 34) && negb (b =? 127))%N.

Fixpoint skipSpaces (s : string) : string :=
  match s with
  | String c s' => if (GoString.byte c =? 32)%N then skipSpaces s' else s
  | EmptyString => EmptyString
  end.

(** the longest prefix of key bytes, and the rest *)
Fixpoint scanKey (s : string) : string * string :=
  match s with
  | String c s' =>
      if keyByte c then let '(k, r) := scanKey s' in (String c k, r)
      else (EmptyString, s)
  | EmptyString => (EmptyString, EmptyString)
  end.

(** After the opening quote: the raw text up to the closing quote, a
    backslash taking the next byte with it, and what follows the closing
    quote; [None] when the closing quote is missing. *)
Fixpoint scanQuoted (s : string) : option (string * string) :=
  match s with
  | EmptyString => None
  | String c s' =>
      if (GoString.byte c =? 34)%N then Some (EmptyString, s')
      else if (GoString.byte c =? 92)%N then
        match s' with
        | EmptyString => None
        | String d s'' =>
            match scanQuoted s'' with
            | Some (v, r) => Some (String c (String d v), r)
            | None => None
            end
        end
      else
        match scanQuoted s' with
        | Some (v, r) => Some (String c v, r)
        | None => None
        end
  end.

Section WithLib.
Context `{GoLib}.

(** [strconv.Unquote] of the double-quoted literal around [raw] *)
Definition Unquote (raw : string) : option string :=
  if negb (GoString.contains (ascii_of_nat 92) raw)
     && negb (GoString.contains (ascii_of_nat 10) raw)
     && GoString.ValidString raw
  then Some raw
  else Unquote_escaped (dq +:+ raw +:+ dq).

(** The loop of [Parse]; every round consumes at least four bytes, so
    the byte length of the tag is enough fuel. *)
Fixpoint Parse_go (fuel : nat) (tag : string) (tags : list Tag) : error + list Tag :=
  match fuel with
  | O => inr tags
  | S fuel' =>
      match skipSpaces tag with
      | EmptyString => inr tags
      | tag1 =>
          let '(key, rest) := scanKey tag1 in
          match key, rest with
          | EmptyString, _ => inl errTagKeySyntax
          | _, String c (String q rest') =>
              if negb (GoString.byte c =? 58)%N then inl errTagSyntax
              else if negb (GoString.byte q =? 34)%N then inl errTagValueSyntax
              else
                match scanQuoted rest' with
                | None => inl errTagValueSyntax
                | Some (raw, tag2) =>
                    match Unquote raw with
                    | None => inl errTagValueSyntax
                    | Some value =>
                        match GoString.SplitByte (ascii_of_nat 44) value with
                        | name :: options =>
                            Parse_go fuel' tag2 (tags ++ [mkTag key name options])
                        | [] => inl errTagValueSyntax
                        end
                    end
                end
          | _, _ => inl errTagSyntax
          end
      end
  end.

Definition Parse (tag : string) : Parsed :=
  match Parse_go (GoString.len tag) tag [] with
  | inl e => ParseErr e
  | inr [] => match tag with EmptyString => ParseOk [] | _ => ParseNil end
  | inr tags => ParseOk tags
  end.

End WithLib.

(** method [Get] of [Tags]: the first tag with the given key *)
Fixpoint Get (tags : list Tag) (key : string) : option Tag :=
  match tags with
  | [] => None
  | t :: ts => if String.eqb (Key t) key then Some t else Get ts key
  end.

(** method [HasOption] of [Tag] *)
Definition HasOption (t : Tag) (opt : string) : bool :=
  existsb (String.eqb opt) (Options t).

End structtag.


(** ** convert.go: the type compiler *)

Definition tsIndent : string := "  ".
Definition tsTypePrefix : string := "export".

(** [n] copies of [s]; a loop [for i := 0; i < n; i++] that writes [s] *)
Fixpoint repeat_string (n : nat) (s : string) : string :=
  match n with
  | O => EmptyString
  | S n' => s +:+ repeat_string n' s
  end.

(** the indentation written by [for i := 0; i < depth+1; i++] *)
Definition indent (depth : Z) : string :=
  repeat_string (Z.to_nat (depth + 1)) tsIndent.

Definition convertType (s : string) : string :=
  if String.eqb s "bool" then "boolean"
  else if existsb (String.eqb s)
            ["int"; "int8"; "int16"; "int32"; "int64";
             "uint"; "uint8"; "uint16"; "uint32"; "uint64";
             "float32"; "float64"; "complex64"; "complex128"]
  then "number"
  else s.

(** the String method of an identifier, and %s on any other node *)
Definition exprString `{GoLib} (e : Expr) : string :=
  match e with
  | Ident n => n
  | _ => Sprint_s e
  end.

(** the override table for qualified references *)
Definition convertSelector (longType : string) : string :=
  if String.eqb longType "time.Time" then "string"
  else if String.eqb longType "time.Duration" then "number"
  else if String.eqb longType "decimal.Decimal" then "number"
  else if String.eqb longType "pgtype.Timestamptz" then "string"
  else longType.

Definition isByteIdent (e : Expr) : bool :=
  match e with
  | Ident n => String.eqb n "byte"
  | _ => false
  end.

(** *** validJSName: the pattern (?m)^[\pL_][\pL\pN_]*$

    With the multi-line flag the anchors match at line boundaries, and the
    classes exclude the newline, so the pattern matches somewhere in the name
    exactly when one of the name's lines is an identifier as a whole. *)

Section ValidJSName.
Context `{GoLib}.

Definition isL (r : N) : bool :=
  if (r <? 128)%N then GoString.between 65 90 r || GoString.between 97 122 r
  else unicode_L r.

Definition isN (r : N) : bool :=
  if (r <? 128)%N then GoString.between 48 57 r else unicode_N r.

Definition identStart (r : N) : bool := isL r || (r =? 95)%N.
Definition identPart (r : N) : bool := isL r || isN r || (r =? 95)%N.

Definition identLine (line : list N) : bool :=
  match line with
  | r :: rest => identStart r && forallb identPart rest
  | [] => false
  end.

(** the lines of a rune sequence, cut at the newline rune *)
Fixpoint splitLines (rs : list N) : list (list N) :=
  match rs with
  | [] => [[]]
  | r :: rs' =>
      if (r =? 10)%N then [] :: splitLines rs'
      else match splitLines rs' with
           | l :: ls => (r :: l) :: ls
           | [] => [[r]]
           end
  end.

Definition validJSName (n : string) : bool :=
  existsb identLine (splitLines (map fst (GoString.runes n))).

End ValidJSName.

(** *** writeFields and writeType

    Both write into the builder they are given and may fail or panic; the
    model passes the builder content through. [writeFields] also assigns to
    the tree ([f.Type = t.X] for a pointer field), so both functions return
    the tree as they leave it. *)

(** What the head of the loop body (name, visibility, tag) decides for one
    field. *)
Inductive FieldHead : Type :=
| Skip
| Fail (e : error)
| Crash (why : string)
| Emit (name : string) (optional : bool).

Section TypeCompiler.
Context `{GoLib}.

Definition fieldName (f : Field) : string :=
  match Names f with
  | n :: _ => n
  | [] => EmptyString
  end.

(** the visibility test: the first byte is within 'A'..'Z' *)
Definition exported (fieldName : string) : bool :=
  match GoString.head fieldName with
  | None => false
  | Some b => negb (b <? 65)%N && negb (90 <? b)%N
  end.

Definition fieldHead (f : Field) : FieldHead :=
  if negb (exported (fieldName f)) then Skip
  else
    match Tag f with
    | None => Emit (fieldName f) false
    | Some v =>
        if (GoString.len v <? 2)%nat then Crash "slice bounds out of range"
        else
          match structtag.Parse (String.substring 1 (GoString.len v - 2) v) with
          | structtag.ParseErr e =>
              Fail (Bubble (Some e) "could not parse struct tag")
          | structtag.ParseNil => Crash "nil pointer dereference"
          | structtag.ParseOk tags =>
              match structtag.Get tags "json" with
              | Some jsonTag =>
                  let name := structtag.Name jsonTag in
                  if String.eqb name "-" then Skip
                  else
                    Emit (if (GoString.len name =? 0)%nat then fieldName f else name)
                         (structtag.HasOption jsonTag "omitempty")
              | None => Emit (fieldName f) false
              end
          end
    end.

(** the emitted name, single-quoted when it is not a bare identifier *)
Definition quoteName (name : string) : string :=
  if negb (validJSName name) then sq +:+ name +:+ sq else name.

Definition writeFields_with
    (writeType : Expr -> string -> Z -> bool -> Res (string * Expr * option error))
  : list Field -> string -> Z -> Res (string * list Field * option error) :=
  fix go (fields : list Field) (builder : string) (depth : Z) :=
    match fields with
    | [] => Done (builder, [], None)
    | f :: rest =>
        match f with
        | mkField names ty tag =>
            match fieldHead f with
            | Skip =>
                '(b, rest', err) ← go rest builder depth;
                Done (b, f :: rest', err)
            | Fail e => Done (builder, fields, Some e)
            | Crash why => Panic why
            | Emit name optional =>
                let b1 := builder +:+ indent depth in
                let b2 := b1 +:+ quoteName name in
                let optional' :=
                  match ty with StarExpr _ => true | _ => optional end in
                let ty' := match ty with StarExpr x => x | _ => ty end in
                let b3 := if optional' then b2 +:+ "?" else b2 in
                let b4 := b3 +:+ ": " in
                '(b5, ty'', _) ← writeType ty' b4 depth false;
                let b6 := b5 +:+ ";" +:+ nl in
                '(b7, rest', err) ← go rest b6 depth;
                Done (b7, mkField names ty'' tag :: rest', err)
            end
        end
    end.

Fixpoint writeType_rec (t : Expr) (builder : string) (depth : Z)
    (optionalParens : bool) {struct t} : Res (string * Expr * option error) :=
  match t with
  | StarExpr X =>
      let b1 := if optionalParens then builder +:+ "(" else builder in
      '(b2, X', err) ← writeType_rec X b1 depth false;
      match err with
      | Some e => Done (b2, StarExpr X', Some (Bubble (Some e) "writeType StarExpr"))
      | None =>
          let b3 := b2 +:+ " | undefined" in
          Done (if optionalParens then b3 +:+ ")" else b3, StarExpr X', None)
      end
  | ArrayType Elt =>
      if isByteIdent Elt then Done (builder +:+ "string", t, None)
      else
        '(b1, Elt', err) ← writeType_rec Elt builder depth true;
        match err with
        | Some e => Done (b1, ArrayType Elt', Some (Bubble (Some e) "writeType ArrayType"))
        | None => Done (b1 +:+ "[]", ArrayType Elt', None)
        end
  | StructType Fields =>
      let b1 := builder +:+ "{" +:+ nl in
      '(b2, Fields', _) ← writeFields_with writeType_rec Fields b1 (depth + 1);
      Done (b2 +:+ indent depth +:+ "}" +:+ ";", StructType Fields', None)
  | Ident n => Done (builder +:+ convertType n, t, None)
  | SelectorExpr X Sel =>
      let longType := exprString X +:+ "." +:+ Sel in
      Done (builder +:+ convertSelector longType, t, None)
  | MapType Key Value =>
      let b1 := builder +:+ "{ [key: " in
      '(b2, Key', err) ← writeType_rec Key b1 depth false;
      match err with
      | Some e => Done (b2, MapType Key' Value, Some (Bubble (Some e) "writeType MapType Key"))
      | None =>
          let b3 := b2 +:+ "]: " in
          '(b4, Value', err) ← writeType_rec Value b3 depth false;
          match err with
          | Some e =>
              Done (b4, MapType Key' Value', Some (Bubble (Some e) "writeType MapType Value"))
          | None => Done (b4 +:+ "}", MapType Key' Value', None)
          end
      end
  | InterfaceType => Done (builder +:+ "any", t, None)
  | IndexListExpr => Done (builder +:+ "any", t, None)
  | OtherExpr dynType =>
      let err := Errorf ("unhandled: " +:+ Sprint_s t +:+ ", " +:+ dynType) in
      Done (builder, t, Some (Bubble (Some err) "writeType"))
  end.

(** The source's argument order: builder, node, depth, parens. *)
Definition writeType (builder : string) (t : Expr) (depth : Z)
    (optionalParens : bool) : Res (string * Expr * option error) :=
  writeType_rec t builder depth optionalParens.

Definition writeFields (builder : string) (fields : list Field) (depth : Z)
  : Res (string * list Field * option error) :=
  writeFields_with writeType_rec fields builder depth.

End TypeCompiler.

(** ** The syntax tree as [ast.Inspect] sees it

    The visitors of this package tell five node types apart (import
    specifications, identifiers, comments, array types and type
    specifications) and descend into every other node. [NOther] is any other
    node, with its children in the order of [ast.Walk]. The children of the
    five distinguished nodes are left out: the visitors either stop the
    descent there or the node is a leaf. *)

Inductive Node : Type :=
| NImportSpec (Name : option string) (PathValue : string)
| NIdent (Name : string)
| NComment (Text : string)
| NArrayType (Elt : Expr)
| NTypeSpec (Name : string) (Type_ : option Expr)
| NOther (children : list Node).

(** [ast.Inspect(node, f)]: depth-first, in pre-order; [f] returns whether to
    descend. The closing call [f(nil)] after the children matches no case of
    the visitors here and changes nothing. *)
Section Inspect.
Context {St : Type} (f : Node -> St -> Res (St * bool)).

Fixpoint Inspect (n : Node) (st : St) {struct n} : Res St :=
  '(st1, descend) ← f n st;
  if descend : bool then
    match n with
    | NOther children =>
        (fix walkList (ns : list Node) (st : St) : Res St :=
           match ns with
           | [] => Done st
           | c :: ns' => st' ← Inspect c st; walkList ns' st'
           end) children st1
    | _ => Done st1
    end
  else Done st1.

Fixpoint walkList (ns : list Node) (st : St) : Res St :=
  match ns with
  | [] => Done st
  | c :: ns' => st' ← Inspect c st; walkList ns' st'
  end.
End Inspect.

(** ** convert.go: the translation entry point *)

(** The parser of package go/parser, a black box: source text to a tree or
    an error. *)
Class GoParser : Type := {
  ParseExprFrom : string -> error + Node;
  ParseFile : string -> error + Node;
}.

(** the envelope [wrapper] around a statement list *)
Definition wrapper (body : string) : string :=
  "package main" +:+ nl +:+ nl +:+ "func main() {" +:+ nl +:+ tab +:+ body +:+ nl +:+ "}".

(** the variables that the closure passed to [ast.Inspect] captures *)
Record ConvertState : Type := mkConvertState {
  ts : string;
  name : string;
  first : bool;
  lastWasComment : bool;
  builderErr : option error;
}.

Section Convert.
Context `{GoLib}.
Variable rootDirName : string.

Definition isInterfaceType (t : option Expr) : bool :=
  match t with
  | Some InterfaceType => true
  | _ => false
  end.

(** [writeType] on a possibly nil node: nil falls into the default case *)
Definition writeTypeOpt (builder : string) (t : option Expr) (depth : Z)
    (optionalParens : bool) : Res (string * option error) :=
  match t with
  | Some t =>
      '(b, _, err) ← writeType builder t depth optionalParens;
      Done (b, err)
  | None =>
      Done (builder,
            Some (Bubble (Some (Errorf "unhandled: %!s(<nil>), <nil>")) "writeType"))
  end.

(** The body of the closure. The tree as [writeType] leaves it is not kept
    here: the traversal never descends below a type specification, so
    nothing reads it again. *)
Definition convertVisit (n : Node) (st : ConvertState) : Res (ConvertState * bool) :=
  match n with
  | NImportSpec x_Name x_Path =>
      let importName :=
        match x_Name with
        | Some nm => GoString.TrimByte (ascii_of_nat 34) nm
        | None => GoString.Base (GoString.TrimByte (ascii_of_nat 34) x_Path)
        end in
      let importPath := GoString.TrimByte (ascii_of_nat 34) x_Path in
      let importPath := GoString.Replace1 importPath rootDirName "@" in
      let line := "import * as " +:+ importName +:+ " from " +:+ dq
                  +:+ importPath +:+ "/types.go.ts" +:+ dq +:+ ";" +:+ nl in
      Done (mkConvertState (ts st +:+ line) (name st) (first st)
              (lastWasComment st) (builderErr st), false)
  | NIdent x_Name =>
      Done (mkConvertState (ts st) x_Name (first st) (lastWasComment st)
              (builderErr st), true)
  | NComment x_Text =>
      let b1 := if negb (first st) then ts st +:+ nl +:+ nl else ts st in
      Done (mkConvertState (b1 +:+ x_Text +:+ nl) (name st) (first st) true
              (builderErr st), false)
  | NArrayType x_Elt =>
      let b1 := if negb (first st) then ts st +:+ nl +:+ nl else ts st in
      let b2 := b1 +:+ tsTypePrefix +:+ " type " +:+ name st
                +:+ " extends Array<" +:+ exprString x_Elt +:+ ">{}" in
      Done (mkConvertState b2 (name st) (first st) (lastWasComment st)
              (builderErr st), false)
  | NTypeSpec x_Name x_Type =>
      if isInterfaceType x_Type then
        let b1 := ts st +:+ tsTypePrefix +:+ " interface " +:+ x_Name
                  +:+ " {" +:+ nl +:+ "}" +:+ nl in
        Done (mkConvertState b1 (name st) (first st) (lastWasComment st)
                (builderErr st), false)
      else
        let b1 := if negb (first st) && negb (lastWasComment st)
                  then ts st +:+ nl +:+ nl else ts st in
        let b2 := b1 +:+ tsTypePrefix +:+ " type " +:+ x_Name +:+ " = " in
        '(b3, err) ← writeTypeOpt b2 x_Type (-1) false;
        match err with
        | Some e =>
            Done (mkConvertState b3 (name st) (first st) (lastWasComment st)
                    (Some e), false)
        | None =>
            Done (mkConvertState b3 (name st) false (lastWasComment st)
                    (builderErr st), false)
        end
  | NOther _ => Done (st, true)
  end.

(** [Convert] from the parsed tree on: a fresh builder, the traversal, and
    the result. *)
Definition ConvertParsed (parsed : Node) : Res (string * option error) :=
  st ← Inspect convertVisit parsed
         (mkConvertState EmptyString EmptyString true false None);
  match builderErr st with
  | Some e => Done (EmptyString, Some (Bubble (Some e) "could not write type"))
  | None => Done (ts st, None)
  end.

Context `{GoParser}.

(** the three parsing attempts, in order *)
Definition parseGo (goStructs : string) : error + Node :=
  match ParseExprFrom goStructs with
  | inr parsed => inr parsed
  | inl _ =>
      match ParseFile goStructs with
      | inr parsed => inr parsed
      | inl _ => ParseFile (wrapper goStructs)
      end
  end.

Definition Convert (goStructs : string) : Res (string * option error) :=
  if String.eqb rootDirName EmptyString then
    Done (EmptyString, Some (Bubble None "RootDirName is empty"))
  else
    let goStructs := GoString.TrimSpace goStructs in
    if (GoString.len goStructs =? 0)%nat then Done (goStructs, None)
    else
      match parseGo goStructs with
      | inl err => Done (EmptyString, Some (Bubble (Some err) "could not parse Go code"))
      | inr parsed => ConvertParsed parsed
      end.

End Convert.

(** Builders for the trees that the parser returns. Each is an [NOther] node
    with its children in [ast.Walk] order: a file is its package name and
    declarations; a function declaration is its name, its type (here with
    an empty parameter list) and its body; a general declaration is its doc
    comments followed by its specifications. *)

Definition File (pkg : string) (decls : list Node) : Node :=
  NOther (NIdent pkg :: decls).
Definition FieldList (fields : list Node) : Node := NOther fields.
Definition FuncType (params : Node) : Node := NOther [params].
Definition BlockStmt (stmts : list Node) : Node := NOther stmts.
Definition FuncDecl (fname : string) (body : list Node) : Node :=
  NOther [NIdent fname; FuncType (FieldList []); BlockStmt body].
Definition CommentGroup (comments : list string) : Node :=
  NOther (map NComment comments).
Definition GenDecl (doc : list string) (specs : list Node) : Node :=
  NOther (match doc with [] => specs | _ => CommentGroup doc :: specs end).
Definition DeclStmt (decl : Node) : Node := NOther [decl].

(** what [wrapper] parses to when the body is a list of declarations *)
Definition wrapped (decls : list Node) : Node :=
  File "main" [FuncDecl "main" (map DeclStmt decls)].

(** ** The aggregation file: ReadTypes and its helpers *)

(** The operating system, the parser and the printer as the aggregator uses
    them, all black boxes:
    - [os_Stat] returns the file information (here: whether the path is a
      directory) or an error, and [os_IsNotExist] classifies that error;
    - [os_ReadDir] lists the entry names of a directory;
    - [parser_ParseFile] takes the file name and the source text;
    - [printer_Fprint] prints a type specification node;
    - [rangeKeys] is the order in which one [range] over a map yields its
      keys, which Go leaves unspecified. *)
Class GoOS : Type := {
  os_Stat : string -> error + bool;
  os_IsNotExist : error -> bool;
  os_ReadDir : string -> error + list string;
  os_ReadFile : string -> error + string;
  filepath_Join : string -> string -> string;
  parser_ParseFile : string -> string -> error + Node;
  printer_Fprint : Node -> string;
  rangeKeys : gmap string string -> list string;
}.

(** the buffer and the two registries that [findStructs] updates *)
Record AggState : Type := mkAggState {
  convertBuf : string;
  imports : gmap string string;
  usedImports : gmap string string;
}.

Section Aggregator.
Context `{GoOS}.
Variable rootDirName : string.

Definition addNode (filePath : string) (n : Node) (convertBuf : string) : string :=
  convertBuf
  +:+ ("/**" +:+ nl +:+ " * [file://./" +:+ filePath +:+ "](" +:+ filePath +:+ ")"
       +:+ nl +:+ " */" +:+ nl)
  +:+ "type "
  +:+ printer_Fprint n
  +:+ nl +:+ nl.

Definition parseFile (fullPath : string) (fileName : string) : error + Node :=
  match os_ReadFile fullPath with
  | inl err => inl (Bubble (Some err) "could not read file")
  | inr source =>
      match parser_ParseFile fileName source with
      | inl err => inl (Bubble (Some err) "could not parse Go code")
      | inr astFile => inr astFile
      end
  end.

(** The qualifier's name is mapped to the selected name in [usedImports];
    the type assertion of the qualifier to an identifier panics when it is
    some other node. *)
Definition recordUsed (X : Expr) (Sel : string) (used : gmap string string)
  : Res (gmap string string) :=
  match X with
  | Ident n => Done (<[n := Sel]> used)
  | _ => Panic "interface conversion: ast.Expr is not *ast.Ident"
  end.

Fixpoint recordUsedFields (fields : list Field) (used : gmap string string)
  : Res (gmap string string) :=
  match fields with
  | [] => Done used
  | field :: rest =>
      match Type_ field with
      | SelectorExpr X Sel =>
          used' ← recordUsed X Sel used; recordUsedFields rest used'
      | _ => recordUsedFields rest used
      end
  end.

(** the body of the closure of [findStructs] *)
Definition findVisit (filePath : string) (n : Node) (st : AggState)
  : Res (AggState * bool) :=
  match n with
  | NImportSpec x_Name x_Path =>
      let importName :=
        match x_Name with
        | Some nm => GoString.TrimByte (ascii_of_nat 34) nm
        | None => GoString.Base (GoString.TrimByte (ascii_of_nat 34) x_Path)
        end in
      Done (mkAggState (convertBuf st)
              (<[importName := GoString.TrimByte (ascii_of_nat 34) x_Path]> (imports st))
              (usedImports st), false)
  | NTypeSpec _ x_Type =>
      let buf := addNode filePath n (convertBuf st) in
      match x_Type with
      | None => Done (mkAggState buf (imports st) (usedImports st), false)
      | Some (SelectorExpr X Sel) =>
          used ← recordUsed X Sel (usedImports st);
          Done (mkAggState buf (imports st) used, false)
      | Some (StructType Fields) =>
          used ← recordUsedFields Fields (usedImports st);
          Done (mkAggState buf (imports st) used, false)
      | Some _ => Done (mkAggState buf (imports st) (usedImports st), false)
      end
  | _ => Done (st, true)
  end.

Definition findStructs (astFile : Node) (filePath : string) (st : AggState)
  : Res AggState :=
  Inspect (findVisit filePath) astFile st.

(** one round of the loop of [createPackage] *)
Definition writeImport (imports : gmap string string) (importsBuf : string)
    (key : string) : string :=
  match imports !! key with
  | None => importsBuf
  | Some p =>
      if negb (GoString.HasPrefix p rootDirName) then importsBuf
      else if String.eqb (GoString.Base p) key
      then importsBuf +:+ tab +:+ dq +:+ p +:+ dq +:+ nl
      else importsBuf +:+ tab +:+ key +:+ " " +:+ dq +:+ p +:+ dq +:+ nl
  end.

(** [createPackage]; [order] is the sequence of keys that the loop
    [for key := range usedImports] goes through in this run. *)
Definition createPackage (convertBuf : string) (imports : gmap string string)
    (order : list string) : string :=
  let importsBuf := "package main" +:+ nl +:+ nl +:+ "import (" +:+ nl in
  let importsBuf := fold_left (writeImport imports) order importsBuf in
  let importsBuf := importsBuf +:+ ")" +:+ nl +:+ nl +:+ "func main() {" +:+ nl in
  let importsBuf := importsBuf +:+ convertBuf in
  importsBuf +:+ "}" +:+ nl.

(** the loop over the directory entries; an error ends the call *)
Fixpoint readFiles (packagePath : string) (files : list string) (st : AggState)
  : Res (error + AggState) :=
  match files with
  | [] => Done (inr st)
  | filePath :: rest =>
      if negb (String.eqb (GoString.Ext filePath) ".go")
      then readFiles packagePath rest st
      else
        let fullPath := filepath_Join packagePath filePath in
        match os_Stat fullPath with
        | inl err => Done (inl (Bubble (Some err) "could not stat file"))
        | inr isDir =>
            if isDir : bool then readFiles packagePath rest st
            else
              match parseFile fullPath filePath with
              | inl err => Done (inl (Bubble (Some err) "could not parse file"))
              | inr astFile =>
                  st' ← findStructs astFile filePath st;
                  readFiles packagePath rest st'
              end
        end
  end.

(** After [os.Stat]: on an error that is not a not-exist error the source
    goes on, and [info] is nil when it calls [info.IsDir()]. *)
Definition ReadTypes (packagePath : string) : Res (string * option error) :=
  if String.eqb rootDirName EmptyString then
    Done (EmptyString, Some (Bubble None "RootDirName is empty"))
  else
    match os_Stat packagePath with
    | inl err =>
        if os_IsNotExist err
        then Done (EmptyString, Some (Bubble (Some err) "path does not exist"))
        else Panic "nil pointer dereference"
    | inr isDir =>
        if negb isDir
        then Done (EmptyString, Some (Bubble None "path is not a directory"))
        else
          match os_ReadDir packagePath with
          | inl err =>
              Done (EmptyString, Some (Bubble (Some err) "could not read directory"))
          | inr files =>
              r ← readFiles packagePath files (mkAggState EmptyString ∅ ∅);
              match r with
              | inl err => Done (EmptyString, Some err)
              | inr st =>
                  if (size (usedImports st) =? 0)%nat
                  then Done (convertBuf st, None)
                  else Done (createPackage (convertBuf st) (imports st)
                               (rangeKeys (usedImports st)), None)
              end
          end
    end.

End Aggregator.

(** ** Concrete inputs used by the scenarios *)

(** A runtime for closed evaluations: no letters or digits beyond ASCII,
    a fixed dump for nodes that are not identifiers, and no support for
    escapes in tag values. None of the inputs below reaches these parts. *)
Definition plainLib : GoLib := {|
  unicode_L := fun _ => false;
  unicode_N := fun _ => false;
  Sprint_s := fun _ => "&{}";
  Unquote_escaped := fun _ => None;
|}.

(** A parser that rejects everything as an expression and as a file, and
    accepts the enveloped text [src] with the tree [tree]: the behaviour of
    go/parser on a text that is a list of declarations. *)
Definition declParser (src : string) (tree : Node) : GoParser := {|
  ParseExprFrom := fun _ => inl (LibErr "parser" "expected operand");
  ParseFile := fun s =>
    if String.eqb s (wrapper src) then inr tree
    else inl (LibErr "parser" "expected 'package'");
|}.

Definition jsonTag (value : string) : string :=
  bq +:+ "json:" +:+ dq +:+ value +:+ dq +:+ bq.

(** type User struct { Name string `json:"name"`; Age *int `json:"age,omitempty"` } *)
Definition user_src : string :=
  "type User struct { Name string " +:+ jsonTag "name"
  +:+ "; Age *int " +:+ jsonTag "age,omitempty" +:+ " }".

Definition user_fields : list Field :=
  [ mkField ["Name"] (Ident "string") (Some (jsonTag "name"));
    mkField ["Age"] (StarExpr (Ident "int")) (Some (jsonTag "age,omitempty")) ].

Definition user_tree : Node :=
  wrapped [GenDecl [] [NTypeSpec "User" (Some (StructType user_fields))]].

Definition user_ts : string :=
  "export type User = {" +:+ nl +:+ "  name: string;" +:+ nl
  +:+ "  age?: number;" +:+ nl +:+ "};".

(** type ID []byte *)
Definition id_src : string := "type ID []byte".
Definition id_tree : Node :=
  wrapped [GenDecl [] [NTypeSpec "ID" (Some (ArrayType (Ident "byte")))]].

(** type T struct { A int `json` }: a tag without colon and value *)
Definition badtag_tree : Node :=
  wrapped [GenDecl [] [NTypeSpec "T"
    (Some (StructType [mkField ["A"] (Ident "int") (Some (bq +:+ "json" +:+ bq))]))]].

(** type T struct { A []func() }: a field whose type holds a shape without
    translation rule *)
Definition badtype_tree : Node :=
  wrapped [GenDecl [] [NTypeSpec "T"
    (Some (StructType
       [mkField ["A"] (ArrayType (OtherExpr "*ast.FuncType")) None]))]].

(** type T []func(): the same shape directly below the declaration *)
Definition badtop_tree : Node :=
  wrapped [GenDecl [] [NTypeSpec "T"
    (Some (ArrayType (OtherExpr "*ast.FuncType")))]].

(** a comment line, type A int, type B int *)
Definition comment_tree : Node :=
  wrapped [GenDecl ["// c"] [NTypeSpec "A" (Some (Ident "int"))];
           GenDecl [] [NTypeSpec "B" (Some (Ident "int"))]].

(** the same two declarations without the comment *)
Definition two_decls_tree : Node :=
  wrapped [GenDecl [] [NTypeSpec "A" (Some (Ident "int"))];
           GenDecl [] [NTypeSpec "B" (Some (Ident "int"))]].

(** An operating system in which every path fails to stat with a
    permission error. *)
Definition deniedOS : GoOS := {|
  os_Stat := fun _ => inl (LibErr "os" "permission denied");
  os_IsNotExist := fun _ => false;
  os_ReadDir := fun _ => inl (LibErr "os" "permission denied");
  os_ReadFile := fun _ => inl (LibErr "os" "permission denied");
  filepath_Join := fun d f => d +:+ "/" +:+ f;
  parser_ParseFile := fun _ _ => inl (LibErr "parser" "no input");
  printer_Fprint := fun _ => EmptyString;
  rangeKeys := fun m => (map_to_list m).*1;
|}.

(** ** What the amended and refuted statements refer to *)




(** what a call leaves in the builder and returns, without the tree *)
Definition output {A : Type} (r : Res (string * A * option error))
  : Res (string * option error) :=
  match r with
  | Done (b, _, e) => Done (b, e)
  | Panic w => Panic w
  end.

(** a result whose builder content is put after [b] *)
Definition prepend {A B : Type} (b : string) (r : Res (string * A * B))
  : Res (string * A * B) :=
  match r with
  | Done (out, a, e) => Done (b +:+ out, a, e)
  | Panic w => Panic w
  end.

(** the type that [writeFields] compiles for a field of declared type [t] *)
Definition pointee (t : Expr) : Expr :=
  match t with StarExpr x => x | _ => t end.

(** [writeType] only appends to the builder it is given *)
Definition appends `{GoLib} (t : Expr) : Prop :=
  forall b d p, writeType_rec t b d p = prepend b (writeType_rec t EmptyString d p).

(** a field name that is empty or whose first byte is outside 'A'..'Z' *)
Definition unexported (fieldName : string) : Prop :=
  match fieldName with
  | EmptyString => True
  | String c _ => (GoString.byte c < 65 \/ 90 < GoString.byte c)%N
  end.

(** one binding of the import block of the synthesized unit: the path alone
    when its base segment is the alias, else the alias and the path *)
Definition importEntry (key p : string) : string :=
  if String.eqb (GoString.Base p) key
  then tab +:+ dq +:+ p +:+ dq +:+ nl
  else tab +:+ key +:+ " " +:+ dq +:+ p +:+ dq +:+ nl.

(** the binding that [createPackage] keeps for a used alias, if any *)
Definition keptBinding (rootDirName : string) (imports : gmap string string)
    (key : string) : option (string * string) :=
  match imports !! key with
  | Some p => if GoString.HasPrefix p rootDirName then Some (key, p) else None
  | None => None
  end.

Fixpoint concatStrings (l : list string) : string :=
  match l with
  | [] => EmptyString
  | s :: l' => s +:+ concatStrings l'
  end.

(** a struct with one exported pointer field, Age *int *)
Definition age_fields : list Field :=
  [mkField ["Age"] (StarExpr (Ident "int")) None].

(** ** Induction over type expressions, through the field lists *)

Section ExprInd.
Variable P : Expr -> Prop.
Hypothesis HIdent : forall n, P (Ident n).
Hypothesis HStar : forall x, P x -> P (StarExpr x).
Hypothesis HArray : forall x, P x -> P (ArrayType x).
Hypothesis HStruct : forall fs, Forall (fun f => P (Type_ f)) fs -> P (StructType fs).
Hypothesis HSel : forall x s, P x -> P (SelectorExpr x s).
Hypothesis HMap : forall k v, P k -> P v -> P (MapType k v).
Hypothesis HIface : P InterfaceType.
Hypothesis HIndex : P IndexListExpr.
Hypothesis HOther : forall d, P (OtherExpr d).

Fixpoint Expr_nested_ind (e : Expr) : P e :=
  match e with
  | Ident n => HIdent n
  | StarExpr x => HStar x (Expr_nested_ind x)
  | ArrayType x => HArray x (Expr_nested_ind x)
  | StructType fs =>
      HStruct fs
        ((fix go (l : list Field) : Forall (fun f => P (Type_ f)) l :=
            match l with
            | [] => List.Forall_nil _
            | mkField n t tg :: l' =>
                List.Forall_cons _ (mkField n t tg) l' (Expr_nested_ind t) (go l')
            end) fs)
  | SelectorExpr x s => HSel x s (Expr_nested_ind x)
  | MapType k v => HMap k v (Expr_nested_ind k) (Expr_nested_ind v)
  | InterfaceType => HIface
  | IndexListExpr => HIndex
  | OtherExpr d => HOther d
  end.
End ExprInd.

(** ** What the further properties refer to *)

(** an unsupported shape that [writeType] reaches without crossing a struct
    type: below pointers, slices that are not byte slices, and maps *)
Fixpoint unhandled (t : Expr) : bool :=
  match t with
  | StarExpr x => unhandled x
  | ArrayType x => if isByteIdent x then false else unhandled x
  | MapType k v => unhandled k || unhandled v
  | OtherExpr _ => true
  | _ => false
  end.

Definition errs_iff_unhandled `{GoLib} (t : Expr) : Prop :=
  forall b d p b' t' e,
    writeType_rec t b d p = Done (b', t', e) -> (is_Some e <-> unhandled t = true).

Definition crashes (h : FieldHead) : bool :=
  match h with Crash _ => true | _ => false end.

(** no field at any depth has a tag that makes the head of the loop panic *)
Fixpoint calm `{GoLib} (t : Expr) : bool :=
  match t with
  | StarExpr x => calm x
  | ArrayType x => calm x
  | MapType k v => calm k && calm v
  | StructType fs =>
      forallb (fun f => negb (crashes (fieldHead f))
                        && match f with mkField _ ty _ => calm ty end) fs
  | _ => true
  end.

Definition calm_ok `{GoLib} (t : Expr) : Prop :=
  calm t = true -> forall b d p, exists r, writeType_rec t b d p = Done r.

Definition isStar (t : Expr) : bool :=
  match t with StarExpr _ => true | _ => false end.

(** the optional marker of an emitted field *)
Definition optMark (optional : bool) : string :=
  if optional then "?" else EmptyString.

Definition asciiLetter (b : N) : bool :=
  GoString.between 65 90 b || GoString.between 97 122 b.
Definition asciiDigit (b : N) : bool := GoString.between 48 57 b.

Fixpoint asciiIdentRest (s : string) : bool :=
  match s with
  | EmptyString => true
  | String c s' =>
      let b := GoString.byte c in
      (asciiLetter b || asciiDigit b || (b =? 95)%N) && asciiIdentRest s'
  end.

(** a letter or underscore followed by letters, digits and underscores *)
Definition asciiIdent (s : string) : bool :=
  match s with
  | EmptyString => false
  | String c s' =>
      let b := GoString.byte c in
      (asciiLetter b || (b =? 95)%N) && asciiIdentRest s'
  end.

(** ASCII bytes only, and no newline *)
Fixpoint plainAscii (s : string) : bool :=
  match s with
  | EmptyString => true
  | String c s' =>
      let b := GoString.byte c in
      (b <? 128)%N && negb (b =? 10)%N && plainAscii s'
  end.

Fixpoint bytesOf (s : string) : list N :=
  match s with
  | EmptyString => []
  | String c s' => GoString.byte c :: bytesOf s'
  end.

(** the bytes that [TrimSpace] removes on its ASCII path *)
Definition asciiSpace (c : ascii) : bool :=
  let b := GoString.byte c in (GoString.between 9 13 b || (b =? 32))%N.

Fixpoint allSpace (s : string) : bool :=
  match s with
  | EmptyString => true
  | String c s' => asciiSpace c && allSpace s'
  end.

(** Induction over syntax trees, through the child lists. *)
Section NodeInd.
Variable P : Node -> Prop.
Hypothesis HImport : forall n p, P (NImportSpec n p).
Hypothesis HIdent : forall n, P (NIdent n).
Hypothesis HComment : forall t, P (NComment t).
Hypothesis HArray : forall e, P (NArrayType e).
Hypothesis HTypeSpec : forall n t, P (NTypeSpec n t).
Hypothesis HOther : forall cs, Forall P cs -> P (NOther cs).

Fixpoint Node_nested_ind (n : Node) : P n :=
  match n with
  | NImportSpec a b => HImport a b
  | NIdent a => HIdent a
  | NComment a => HComment a
  | NArrayType a => HArray a
  | NTypeSpec a b => HTypeSpec a b
  | NOther cs =>
      HOther cs
        ((fix go (l : list Node) : Forall P l :=
            match l with
            | [] => List.Forall_nil _
            | c :: l' => List.Forall_cons _ c l' (Node_nested_ind c) (go l')
            end) cs)
  end.
End NodeInd.

(** [Within n m]: the node [m] is [n] itself or lies below [n], through
    nodes that the visitors descend into *)
Inductive Within : Node -> Node -> Prop :=
| Within_here n : Within n n
| Within_child cs c m : c ∈ cs -> Within c m -> Within (NOther cs) m.

(** a type declaration statement of a function body *)
Definition typeDecl (nm : string) (t : Expr) : Node :=
  GenDecl [] [NTypeSpec nm (Some t)].

(** the text of one compiled declaration *)
Definition declText (nm txt : string) : string :=
  "export type " +:+ nm +:+ " = " +:+ txt.

Definition blankLine : string := nl +:+ nl.

(** A declaration that the type compiler accepts: its name, its type, which
    is not an interface, and the text compiled for the type at depth -1. *)
Definition compiles `{GoLib} (d : string * Expr * string) : Prop :=
  let '(nm, t, txt) := d in
  isInterfaceType (Some t) = false
  /\ exists t', writeType EmptyString t (-1) false = Done (txt, t', None).

Definition declNode (d : string * Expr * string) : Node :=
  DeclStmt (typeDecl d.1.1 d.1.2).
Definition declOut (d : string * Expr * string) : string :=
  declText d.1.1 d.2.

Definition directSelector (t : Expr) : bool :=
  match t with SelectorExpr _ _ => true | _ => false end.

(** a directory entry that the loop of [ReadTypes] passes over: its
    extension is not .go, or it is a directory *)
Definition passedOver `{GoOS} (packagePath filePath : string) : Prop :=
  GoString.Ext filePath <> ".go"
  \/ os_Stat (filepath_Join packagePath filePath) = inr true.

(** what [findStructs] may do to its state: append to the buffer and add to
    the registries *)
Definition grows (a b : AggState) : Prop :=
  (exists s, convertBuf b = convertBuf a +:+ s)
  /\ (forall k, is_Some (imports a !! k) -> is_Some (imports b !! k))
  /\ (forall k, is_Some (usedImports a !! k) -> is_Some (usedImports b !! k)).

(** A small file system: the directory /pkg holds a text file and a
    directory named like a source file; /notes is a regular file; every
    other path is missing. The printer prints a type specification as its
    name. *)
Definition sampleOS : GoOS := {|
  os_Stat := fun p =>
    if String.eqb p "/pkg" then inr true
    else if String.eqb p "/pkg/vendor.go" then inr true
    else if String.eqb p "/notes" then inr false
    else inl (LibErr "os" "no such file or directory");
  os_IsNotExist := fun _ => true;
  os_ReadDir := fun p =>
    if String.eqb p "/pkg" then inr ["README.md"; "vendor.go"]
    else inl (LibErr "os" "not a directory");
  os_ReadFile := fun _ => inl (LibErr "os" "no such file or directory");
  filepath_Join := fun d f => d +:+ "/" +:+ f;
  parser_ParseFile := fun _ _ => inl (LibErr "parser" "no input");
  printer_Fprint := fun n =>
    match n with NTypeSpec nm _ => nm | _ => EmptyString end;
  rangeKeys := fun m => (map_to_list m).*1;
|}.

(** a source file with one import and the declaration
    type Order struct { At time.Time; By *models.User } *)
Definition order_fields : list Field :=
  [ mkField ["At"] (SelectorExpr (Ident "time") "Time") None;
    mkField ["By"] (StarExpr (SelectorExpr (Ident "models") "User")) None ].

Definition order_file : Node :=
  File "shop"
    [ GenDecl [] [NImportSpec None (dq +:+ "app/models" +:+ dq)];
      GenDecl [] [NTypeSpec "Order" (Some (StructType order_fields))] ].

(** ** What the statements on the tree, the field lines and the imports refer to *)

(** a node below which [writeType] does not go *)
Definition isLeaf (t : Expr) : bool :=
  match t with
  | Ident _ | SelectorExpr _ _ | InterfaceType | IndexListExpr | OtherExpr _ => true
  | _ => false
  end.

(** the number of pointer constructors at the top of a type *)
Fixpoint leadingStars (t : Expr) : nat :=
  match t with
  | StarExpr x => S (leadingStars x)
  | _ => O
  end.

(** How the emission pass changes a type node and a field list. A pointer
    field that is emitted gets the type its pointer type points to; nothing
    else is replaced. The relation follows the pass: it does not go below a
    slice of bytes, it leaves the value type of a map alone when the key
    type has no translation, it leaves a skipped field as it is, and it
    stops at a field whose tag does not parse. *)
Section UnwrapDef.
Context `{GoLib}.

Inductive Unwrap : Expr -> Expr -> Prop :=
| Unwrap_leaf t : isLeaf t = true -> Unwrap t t
| Unwrap_star x x' : Unwrap x x' -> Unwrap (StarExpr x) (StarExpr x')
| Unwrap_bytes x : isByteIdent x = true -> Unwrap (ArrayType x) (ArrayType x)
| Unwrap_array x x' :
    isByteIdent x = false -> Unwrap x x' -> Unwrap (ArrayType x) (ArrayType x')
| Unwrap_map k k' v v' :
    unhandled k = false -> Unwrap k k' -> Unwrap v v' ->
    Unwrap (MapType k v) (MapType k' v')
| Unwrap_map_key k k' v :
    unhandled k = true -> Unwrap k k' -> Unwrap (MapType k v) (MapType k' v)
| Unwrap_struct fs fs' : UnwrapFields fs fs' -> Unwrap (StructType fs) (StructType fs')
with UnwrapFields : list Field -> list Field -> Prop :=
| UnwrapFields_nil : UnwrapFields [] []
| UnwrapFields_skip f fs fs' :
    fieldHead f = Skip -> UnwrapFields fs fs' -> UnwrapFields (f :: fs) (f :: fs')
| UnwrapFields_fail f e fs :
    fieldHead f = Fail e -> UnwrapFields (f :: fs) (f :: fs)
| UnwrapFields_emit names ty tag name opt ty' fs fs' :
    fieldHead (mkField names ty tag) = Emit name opt ->
    Unwrap (pointee ty) ty' ->
    UnwrapFields fs fs' ->
    UnwrapFields (mkField names ty tag :: fs) (mkField names ty' tag :: fs').

Definition unwraps (t : Expr) : Prop :=
  forall b d p b' t' e, writeType_rec t b d p = Done (b', t', e) -> Unwrap t t'.
End UnwrapDef.

(** the emitted name of a field with a json key: the name of the key, or the
    Go name when the key gives none *)
Definition jsonName (goName : string) (jt : structtag.Tag) : string :=
  match structtag.Name jt with
  | EmptyString => goName
  | n => n
  end.

(** type T struct { ID int; Nick string `json:"nick,omitempty"`;
    Boss *string `json:"boss"`; Note string } *)
Definition staff_fields : list Field :=
  [ mkField ["ID"] (Ident "int") None;
    mkField ["Nick"] (Ident "string") (Some (jsonTag "nick,omitempty"));
    mkField ["Boss"] (StarExpr (Ident "string")) (Some (jsonTag "boss"));
    mkField ["Note"] (Ident "string") None ].









(** * Properties *)

(** ** Strings *)

Lemma app_cons_s (c : ascii) (a b : string) : String c a +:+ b = String c (a +:+ b).
Proof. reflexivity. Qed.

Lemma app_empty_l (s : string) : EmptyString +:+ s = s.
Proof. reflexivity. Qed.

Lemma app_assoc_s (a b c : string) : (a +:+ b) +:+ c = a +:+ (b +:+ c).
Proof.
  induction a as [|x a IH]; [reflexivity|].
  by rewrite !app_cons_s, IH.
Qed.

Lemma app_empty_r (s : string) : s +:+ EmptyString = s.
Proof.
  induction s as [|x s IH]; [reflexivity|].
  by rewrite app_cons_s, IH.
Qed.

Lemma app_inv_head_s (a b c : string) : a +:+ b = a +:+ c -> b = c.
Proof.
  induction a as [|x a IH]; [done|].
  rewrite !app_cons_s. intros [= E]. auto.
Qed.

(** ** The traversal *)

Lemma Inspect_other {St : Type} (f : Node -> St -> Res (St * bool))
    (children : list Node) (st : St) :
  Inspect f (NOther children) st
  = ('(st1, descend) ← f (NOther children) st;
     if descend : bool then walkList f children st1 else Done st1).
Proof. reflexivity. Qed.

(** ** The fuel of the decoding and parsing loops is enough

    Every round of these loops consumes at least one byte, so the byte length
    of the input, with which they are started, lets them run to their end:
    more fuel gives the same result. *)

Lemma DecodeRune_rest c s :
  (GoString.len (GoString.DecodeRune (String c s)).2 <= GoString.len s)%nat.
Proof.
  unfold GoString.DecodeRune.
  repeat case_match; simplify_eq; unfold GoString.len; cbn; lia.
Qed.

Lemma runes_go_fuel n : forall f1 f2 s,
  (GoString.len s <= n)%nat -> (n <= f1)%nat -> (n <= f2)%nat ->
  GoString.runes_go f1 s = GoString.runes_go f2 s.
Proof.
  induction n as [|n IH]; intros f1 f2 s Hs H1 H2.
  - destruct s; [|unfold GoString.len in *; cbn in Hs; lia]. by destruct f1, f2.
  - destruct f1 as [|f1]; [lia|]. destruct f2 as [|f2]; [lia|].
    destruct s as [|c s]; [done|].
    cbn [GoString.runes_go].
    pose proof (DecodeRune_rest c s) as Hr.
    destruct (GoString.DecodeRune (String c s)) as [[r w] rest].
    f_equal. apply IH; unfold GoString.len in *; cbn in *; lia.
Qed.

Lemma runes_enough_fuel s fuel :
  (GoString.len s <= fuel)%nat -> GoString.runes_go fuel s = GoString.runes s.
Proof. intros. apply (runes_go_fuel (GoString.len s)); lia. Qed.

Lemma TrimLeftSpace_go_fuel n : forall f1 f2 s,
  (GoString.len s <= n)%nat -> (n <= f1)%nat -> (n <= f2)%nat ->
  GoString.TrimLeftSpace_go f1 s = GoString.TrimLeftSpace_go f2 s.
Proof.
  induction n as [|n IH]; intros f1 f2 s Hs H1 H2.
  - destruct s; [|unfold GoString.len in *; cbn in Hs; lia]. by destruct f1, f2.
  - destruct f1 as [|f1]; [lia|]. destruct f2 as [|f2]; [lia|].
    destruct s as [|c s]; [done|].
    cbn [GoString.TrimLeftSpace_go].
    pose proof (DecodeRune_rest c s) as Hr.
    destruct (GoString.DecodeRune (String c s)) as [[r w] rest].
    destruct (GoString.IsSpace r); [|done]. apply IH; unfold GoString.len in *; cbn in *; lia.
Qed.

Lemma skipSpaces_len s :
  (GoString.len (structtag.skipSpaces s) <= GoString.len s)%nat.
Proof.
  induction s as [|c s IH]; [done|]. cbn [structtag.skipSpaces].
  destruct (_ =? _)%N; unfold GoString.len in *; cbn in *; lia.
Qed.

Lemma scanKey_len s :
  (GoString.len (structtag.scanKey s).1 + GoString.len (structtag.scanKey s).2
   = GoString.len s)%nat.
Proof.
  induction s as [|c s IH]; [done|]. cbn [structtag.scanKey].
  destruct (structtag.keyByte c); [|done].
  destruct (structtag.scanKey s) as [k r]. unfold GoString.len in *. cbn in *. lia.
Qed.

Lemma scanQuoted_len_upto n : forall s raw rest,
  (GoString.len s <= n)%nat -> structtag.scanQuoted s = Some (raw, rest) ->
  (GoString.len rest < GoString.len s)%nat.
Proof.
  induction n as [|n IH]; intros s raw rest Hn.
  - destruct s; [done|unfold GoString.len in *; cbn in Hn; lia].
  - destruct s as [|c s]; [done|]. cbn [structtag.scanQuoted].
    destruct (_ =? 34)%N; [intros [= <- <-]; unfold GoString.len; cbn; lia|].
    destruct (_ =? 92)%N.
    + destruct s as [|d s]; [done|].
      destruct (structtag.scanQuoted s) as [[v r]|] eqn:E; [|done].
      intros [= <- <-]. apply IH in E; unfold GoString.len in *; cbn in *; lia.
    + destruct (structtag.scanQuoted s) as [[v r]|] eqn:E; [|done].
      intros [= <- <-]. apply IH in E; unfold GoString.len in *; cbn in *; lia.
Qed.

Lemma scanQuoted_len s raw rest :
  structtag.scanQuoted s = Some (raw, rest) -> (GoString.len rest < GoString.len s)%nat.
Proof. by apply (scanQuoted_len_upto (GoString.len s)). Qed.

Section ParseFuel.
Context `{GoLib}.

Lemma Parse_go_fuel n : forall f1 f2 tag acc,
  (GoString.len tag <= n)%nat -> (n <= f1)%nat -> (n <= f2)%nat ->
  structtag.Parse_go f1 tag acc = structtag.Parse_go f2 tag acc.
Proof.
  induction n as [|n IH]; intros f1 f2 tag acc Hs H1 H2.
  - destruct tag; [|unfold GoString.len in *; cbn in Hs; lia]. by destruct f1, f2.
  - destruct f1 as [|f1]; [lia|]. destruct f2 as [|f2]; [lia|].
    cbn [structtag.Parse_go].
    pose proof (skipSpaces_len tag) as Hsk.
    destruct (structtag.skipSpaces tag) as [|a tag1]; [done|].
    pose proof (scanKey_len (String a tag1)) as Hk.
    destruct (structtag.scanKey (String a tag1)) as [key rest].
    destruct key as [|k0 key]; [done|].
    destruct rest as [|c [|q rest']]; try done.
    destruct (negb _); [done|]. destruct (negb _); [done|].
    destruct (structtag.scanQuoted rest') as [[raw tag2]|] eqn:Eq; [|done].
    apply scanQuoted_len in Eq.
    destruct (structtag.Unquote raw); [|done].
    destruct (GoString.SplitByte _ _); [done|].
    apply IH; unfold GoString.len in *; cbn in *; lia.
Qed.

Lemma Parse_enough_fuel tag fuel :
  (GoString.len tag <= fuel)%nat ->
  structtag.Parse_go fuel tag [] = structtag.Parse_go (GoString.len tag) tag [].
Proof. intros. apply (Parse_go_fuel (GoString.len tag)); lia. Qed.
End ParseFuel.

(** ** The library models on sample inputs *)

Section LibraryExamples.
Context `{GoLib}.

Example Parse_name_and_option :
  structtag.Parse ("json:" +:+ dq +:+ "age,omitempty" +:+ dq)
  = structtag.ParseOk [structtag.mkTag "json" "age" ["omitempty"]].
Proof. reflexivity. Qed.

Example Parse_two_keys :
  structtag.Parse ("json:" +:+ dq +:+ "a" +:+ dq +:+ " xml:" +:+ dq +:+ "b" +:+ dq)
  = structtag.ParseOk [structtag.mkTag "json" "a" []; structtag.mkTag "xml" "b" []].
Proof. reflexivity. Qed.

Example Parse_no_colon :
  structtag.Parse "json" = structtag.ParseErr structtag.errTagSyntax.
Proof. reflexivity. Qed.

Example Parse_no_key :
  structtag.Parse (":" +:+ dq +:+ "a" +:+ dq)
  = structtag.ParseErr structtag.errTagKeySyntax.
Proof. reflexivity. Qed.

Example Parse_open_value :
  structtag.Parse ("json:" +:+ dq +:+ "a")
  = structtag.ParseErr structtag.errTagValueSyntax.
Proof. reflexivity. Qed.

Example Parse_spaces_only : structtag.Parse "  " = structtag.ParseNil.
Proof. reflexivity. Qed.

Example Replace1_inner : GoString.Replace1 "lib/app/x" "app" "@" = "lib/@/x".
Proof. reflexivity. Qed.

Example Base_trailing_slashes : GoString.Base "a/b/c//" = "c".
Proof. reflexivity. Qed.

Example Base_only_slashes : GoString.Base "//" = "/".
Proof. reflexivity. Qed.

Example Ext_last_element : GoString.Ext "a/b.x/c.go" = ".go".
Proof. reflexivity. Qed.

Example Ext_none : GoString.Ext "a/b.x/c" = EmptyString.
Proof. reflexivity. Qed.

Example TrimSpace_both_ends :
  GoString.TrimSpace (tab +:+ " a b " +:+ nl) = "a b".
Proof. reflexivity. Qed.

Example validJSName_plain : validJSName "user_id2" = true.
Proof. reflexivity. Qed.

Example validJSName_dash : validJSName "user-id" = false.
Proof. reflexivity. Qed.

Example quoteName_dash : quoteName "user-id" = sq +:+ "user-id" +:+ sq.
Proof. reflexivity. Qed.

Example writeType_map_of_pointer_slices :
  output (writeType EmptyString
            (MapType (Ident "string") (ArrayType (StarExpr (Ident "int64")))) 0 false)
  = Done ("{ [key: string]: (number | undefined)[]}", None).
Proof. reflexivity. Qed.

Example writeType_selector :
  output (writeType EmptyString (SelectorExpr (Ident "time") "Time") 0 false)
  = Done ("string", None).
Proof. reflexivity. Qed.

End LibraryExamples.


(** ** The type compiler writes by appending *)

Section TypeCompilerFacts.
Context `{GoLib}.

Lemma writeFields_with_cons wt f rest b d :
  writeFields_with wt (f :: rest) b d =
  match fieldHead f with
  | Skip =>
      '(b', rest', err) ← writeFields_with wt rest b d;
      Done (b', f :: rest', err)
  | Fail e => Done (b, f :: rest, Some e)
  | Crash why => Panic why
  | Emit name optional =>
      let optional' := match Type_ f with StarExpr _ => true | _ => optional end in
      let b2 := (b +:+ indent d) +:+ quoteName name in
      let b3 := if optional' then b2 +:+ "?" else b2 in
      '(b5, ty'', _) ← wt (pointee (Type_ f)) (b3 +:+ ": ") d false;
      '(b7, rest', err) ← writeFields_with wt rest (b5 +:+ ";" +:+ nl) d;
      Done (b7, mkField (Names f) ty'' (Tag f) :: rest', err)
  end.
Proof. destruct f as [names ty tag]. reflexivity. Qed.

Lemma writeFields_appends_from fs :
  Forall (fun f => appends (pointee (Type_ f))) fs ->
  forall b d, writeFields_with writeType_rec fs b d
              = prepend b (writeFields_with writeType_rec fs EmptyString d).
Proof.
  induction 1 as [|f fs Hf _ IH]; intros b d.
  - cbn. by rewrite app_empty_r.
  - rewrite !writeFields_with_cons.
    destruct (fieldHead f) as [|e|w|name opt].
    + rewrite IH.
      destruct (writeFields_with writeType_rec fs EmptyString d) as [[[o r] e]|w];
        reflexivity.
    + cbn. by rewrite app_empty_r.
    + reflexivity.
    + cbn zeta. rewrite Hf. rewrite (Hf (_ +:+ _)).
      destruct (writeType_rec (pointee (Type_ f)) EmptyString d false)
        as [[[o t'] e]|w]; [|reflexivity].
      cbn -[String.append]. rewrite IH. rewrite (IH (_ +:+ _)).
      destruct (writeFields_with writeType_rec fs EmptyString d)
        as [[[o2 r] e2]|w]; [|reflexivity].
      cbn -[String.append].
      destruct (match Type_ f with StarExpr _ => true | _ => opt end);
        by rewrite ?app_assoc_s, ?app_empty_l.
Qed.

Lemma appends_all (t : Expr) : appends t /\ appends (pointee t).
Proof.
  revert t.
  apply (Expr_nested_ind (fun t => appends t /\ appends (pointee t))).
  - intros n. split; intros b d p; cbn; by rewrite app_empty_l.
  - intros x [IH _]. split; [|exact IH]. intros b d p.
    cbn -[String.append]. rewrite IH. rewrite (IH (if p then _ else _)).
    destruct (writeType_rec x EmptyString d false) as [[[o t'] [e|]]|w];
      destruct p; cbn -[String.append]; by rewrite ?app_assoc_s, ?app_empty_l.
  - intros x [IH _].
    assert (appends (ArrayType x)) as A; [|by split].
    intros b d p. cbn -[String.append].
    destruct (isByteIdent x); [by rewrite app_empty_l|].
    rewrite IH.
    destruct (writeType_rec x EmptyString d true) as [[[o t'] [e|]]|w];
      cbn -[String.append]; by rewrite ?app_assoc_s, ?app_empty_l.
  - intros fs IH.
    assert (appends (StructType fs)) as A; [|by split].
    intros b d p. cbn -[String.append].
    assert (Forall (fun f => appends (pointee (Type_ f))) fs) as F.
    { eapply Forall_impl; [exact IH|]. by intros f [_ ?]. }
    rewrite (writeFields_appends_from fs F).
    rewrite (writeFields_appends_from fs F (_ +:+ _)).
    destruct (writeFields_with writeType_rec fs EmptyString (d + 1))
      as [[[o r] e]|w]; cbn -[String.append];
      by rewrite ?app_assoc_s, ?app_empty_l.
  - intros x s _. split; intros b d p; cbn -[String.append]; by rewrite app_empty_l.
  - intros k v [IHk _] [IHv _].
    assert (appends (MapType k v)) as A; [|by split].
    intros b d p. cbn -[String.append].
    rewrite IHk. rewrite (IHk (_ +:+ _)).
    destruct (writeType_rec k EmptyString d false) as [[[o t'] [e|]]|w];
      cbn -[String.append]; rewrite ?app_assoc_s, ?app_empty_l; try done.
    rewrite IHv. rewrite (IHv (_ +:+ _)).
    destruct (writeType_rec v EmptyString d false) as [[[o2 t2] [e|]]|w];
      cbn -[String.append]; by rewrite ?app_assoc_s, ?app_empty_l.
  - split; intros b d p; cbn -[String.append]; by rewrite app_empty_l.
  - split; intros b d p; cbn -[String.append]; by rewrite app_empty_l.
  - intros dt. split; intros b d p; cbn -[String.append]; by rewrite app_empty_r.
Qed.

Lemma writeType_appends t b d p :
  writeType b t d p = prepend b (writeType EmptyString t d p).
Proof. apply appends_all. Qed.

Lemma writeFields_appends fs b d :
  writeFields b fs d = prepend b (writeFields EmptyString fs d).
Proof.
  apply writeFields_appends_from, Forall_forall. intros f _. apply appends_all.
Qed.

Lemma exported_false n : unexported n -> exported n = false.
Proof.
  destruct n as [|c n]; [done|]. unfold unexported, exported, GoString.head.
  intros [L|L]; apply N.ltb_lt in L; rewrite L; [done|].
  apply andb_false_r.
Qed.

Lemma fieldHead_unexported f : unexported (fieldName f) -> fieldHead f = Skip.
Proof. intros U. unfold fieldHead. by rewrite (exported_false _ U). Qed.

Lemma output_bind_cons {A} (r : Res (string * list A * option error)) (f : A) :
  output ('(b, rest, err) ← r; Done (b, f :: rest, err)) = output r.
Proof. by destruct r as [[[b l] e]|w]. Qed.

(** C10. A field whose name is empty or starts with a byte outside 'A'..'Z'
    leaves no trace in the emitted struct body: the text and the error are
    those of the field list without it. The first byte of the UTF-8 encoding
    of a non-ASCII upper-case letter is 195 or more, hence outside the range. *)
Theorem C10_unexported_field_skipped f pre post b d :
  unexported (fieldName f) ->
  output (writeFields b (pre ++ f :: post) d)
  = output (writeFields b (pre ++ post) d).
Proof.
  intros U. unfold writeFields. revert b.
  induction pre as [|g pre IH]; intros b.
  - cbn [app]. rewrite writeFields_with_cons, (fieldHead_unexported f U).
    apply output_bind_cons.
  - cbn [app]. rewrite !writeFields_with_cons.
    destruct (fieldHead g) as [|e|w|name opt]; try reflexivity.
    + rewrite !output_bind_cons. apply IH.
    + cbn zeta.
      destruct (writeType_rec (pointee (Type_ g)) _ d false) as [[[o t'] e]|w];
        [|reflexivity].
      cbn -[String.append]. rewrite !output_bind_cons. apply IH.
Qed.
End TypeCompilerFacts.

(** ** The import block of the synthesized unit *)

Section CreatePackageFacts.
Variable rootDirName : string.

Lemma writeImport_kept imports buf key :
  writeImport rootDirName imports buf key
  = buf +:+ match keptBinding rootDirName imports key with
            | Some (k, p) => importEntry k p
            | None => EmptyString
            end.
Proof.
  unfold writeImport, keptBinding, importEntry.
  destruct (imports !! key) as [p|]; [|by rewrite app_empty_r].
  destruct (GoString.HasPrefix p rootDirName); cbn [negb]; [|by rewrite app_empty_r].
  destruct (String.eqb (GoString.Base p) key); by rewrite ?app_assoc_s.
Qed.

Lemma fold_writeImport imports order buf :
  fold_left (writeImport rootDirName imports) order buf
  = buf +:+ concatStrings
              (map (fun kp => importEntry kp.1 kp.2)
                   (omap (keptBinding rootDirName imports) order)).
Proof.
  revert buf. induction order as [|key order IH]; intros buf.
  - cbn. by rewrite app_empty_r.
  - cbn [fold_left]. rewrite IH, writeImport_kept. cbn [omap list_omap].
    destruct (keptBinding rootDirName imports key) as [[k p]|]; cbn [map concatStrings fst snd].
    + by rewrite app_assoc_s.
    + by rewrite app_empty_r.
Qed.

Lemma keptBinding_Some imports key k p :
  keptBinding rootDirName imports key = Some (k, p) <->
  k = key /\ imports !! key = Some p /\ GoString.HasPrefix p rootDirName = true.
Proof.
  unfold keptBinding. destruct (imports !! key) as [q|].
  - destruct (GoString.HasPrefix q rootDirName) eqn:E; split.
    + by intros [= <- <-].
    + by intros (-> & [= ->] & _).
    + discriminate.
    + intros (_ & [= ->] & E'). congruence.
  - split; [discriminate | by intros (_ & [=] & _)].
Qed.

Lemma NoDup_kept imports order :
  NoDup order -> NoDup (omap (keptBinding rootDirName imports) order).
Proof.
  induction 1 as [|key order Hnotin _ IH]; [constructor|].
  cbn [omap list_omap].
  destruct (keptBinding rootDirName imports key) as [[k p]|] eqn:E; [|exact IH].
  constructor; [|exact IH].
  apply keptBinding_Some in E as (-> & _ & _).
  intros (x & Hx & Ex)%list_elem_of_omap.
  apply keptBinding_Some in Ex as (-> & _ & _). contradiction.
Qed.

(** C5. Whatever order the loop over the used-imports registry takes, the
    synthesized unit is the package header, one entry per kept binding, and
    the function envelope around the declarations; the kept bindings are
    exactly the pairs of an alias and a path such that the alias is declared
    with that path, the alias is used, and the path starts with the root
    namespace. *)
Theorem C5_import_block (convertBuf : string) (imports used : gmap string string)
    (order : list string) :
  order ≡ₚ (map_to_list used).*1 ->
  exists kept : list (string * string),
    createPackage rootDirName convertBuf imports order
    = "package main" +:+ nl +:+ nl +:+ "import (" +:+ nl
      +:+ concatStrings (map (fun kp => importEntry kp.1 kp.2) kept)
      +:+ ")" +:+ nl +:+ nl +:+ "func main() {" +:+ nl
      +:+ convertBuf +:+ "}" +:+ nl
    /\ NoDup kept
    /\ forall k p, (k, p) ∈ kept <->
         imports !! k = Some p /\ is_Some (used !! k)
         /\ GoString.HasPrefix p rootDirName = true.
Proof.
  intros Hperm.
  exists (omap (keptBinding rootDirName imports) order). split; [|split].
  - unfold createPackage. rewrite fold_writeImport. by rewrite ?app_assoc_s.
  - apply NoDup_kept. rewrite Hperm. apply NoDup_fst_map_to_list.
  - intros k p. rewrite list_elem_of_omap. split.
    + intros (x & Hx & (-> & Hp & Hpre)%keptBinding_Some).
      split; [done|split; [|done]].
      rewrite Hperm in Hx.
      apply list_elem_of_fmap in Hx as ([k v] & -> & Hkv).
      apply elem_of_map_to_list in Hkv. by exists v.
    + intros (Hp & [v Hv] & Hpre). exists k. split.
      * rewrite Hperm. apply list_elem_of_fmap. exists (k, v). split; [done|].
        by apply elem_of_map_to_list.
      * by apply keptBinding_Some.
Qed.
End CreatePackageFacts.

(** C5 at a concrete run: three declared imports, two used aliases. *)
Lemma C5_import_block_witness :
  let imports : gmap string string :=
    <["models" := "app/models"]> (<["fmt" := "fmt"]> (<["m2" := "app/other"]> ∅)) in
  let used : gmap string string := <["models" := "User"]> (<["time" := "Time"]> ∅) in
  exists kept,
    createPackage "app" "BODY" imports ["time"; "models"]
    = "package main" +:+ nl +:+ nl +:+ "import (" +:+ nl
      +:+ concatStrings (map (fun kp => importEntry kp.1 kp.2) kept)
      +:+ ")" +:+ nl +:+ nl +:+ "func main() {" +:+ nl
      +:+ "BODY" +:+ "}" +:+ nl
    /\ NoDup kept
    /\ forall k p, (k, p) ∈ kept <->
         imports !! k = Some p /\ is_Some (used !! k)
         /\ GoString.HasPrefix p "app" = true.
Proof.
  intros imports used.
  apply (C5_import_block "app" "BODY" imports used ["time"; "models"]).
  vm_compute. apply perm_swap.
Defined.

(** ** The translation entry point *)

Section ConvertFacts.
Context `{GoLib}.







Lemma TrimSpace_user_src : GoString.TrimSpace user_src = user_src.
Proof. vm_compute. reflexivity. Qed.

Lemma TrimSpace_id_src : GoString.TrimSpace id_src = id_src.
Proof. vm_compute. reflexivity. Qed.

(** the entry point on a text that only the third parsing attempt accepts *)
Lemma Convert_wrapped `{GoParser} (rootDirName src : string) (tree : Node) :
  rootDirName <> EmptyString ->
  GoString.TrimSpace src = src ->
  src <> EmptyString ->
  (exists e, ParseExprFrom src = inl e) ->
  (exists e, ParseFile src = inl e) ->
  ParseFile (wrapper src) = inr tree ->
  Convert rootDirName src = ConvertParsed rootDirName tree.
Proof.
  intros Hroot Htrim Hsrc [e1 E1] [e2 E2] E3. unfold Convert.
  apply String.eqb_neq in Hroot. rewrite Hroot, Htrim.
  destruct src as [|c src]; [done|]. cbn [GoString.len String.length Nat.eqb].
  unfold parseGo. by rewrite E1, E2, E3.
Qed.

(** C2. The User scenario: with the root namespace set, and the parser
    accepting the text at its third attempt with the tree [user_tree], the
    entry point returns exactly [user_ts] and no error. *)
Theorem C2_user_struct `{GoParser} (rootDirName : string) :
  rootDirName <> EmptyString ->
  (exists e, ParseExprFrom user_src = inl e) ->
  (exists e, ParseFile user_src = inl e) ->
  ParseFile (wrapper user_src) = inr user_tree ->
  Convert rootDirName user_src = Done (user_ts, None).
Proof.
  intros Hroot E1 E2 E3.
  rewrite (Convert_wrapped rootDirName user_src user_tree Hroot
             TrimSpace_user_src ltac:(discriminate) E1 E2 E3).
  vm_compute. reflexivity.
Qed.

(** C1, evaluated at the failing inputs. A malformed tag on a struct field
    and a field type that holds a shape without translation rule both make
    the inner call return an error, and the entry point still returns the
    text emitted so far with a nil error: [writeType] discards the error of
    [writeFields], and [writeFields] discards the error of [writeType]. The
    same unsupported shape directly below the declaration does end the call
    with an error and no text. *)
Theorem C1_nested_errors_are_dropped (rootDirName : string) :
  ConvertParsed rootDirName badtag_tree
  = Done ("export type T = {" +:+ nl +:+ "};", None)
  /\ ConvertParsed rootDirName badtype_tree
    = Done ("export type T = {" +:+ nl +:+ "  A: ;" +:+ nl +:+ "};", None)
  /\ output (writeFields EmptyString
               [mkField ["A"] (Ident "int") (Some (bq +:+ "json" +:+ bq))] 0)
    = Done (EmptyString,
            Some (Bubble (Some structtag.errTagSyntax) "could not parse struct tag"))
  /\ (exists e,
        output (writeType EmptyString (ArrayType (OtherExpr "*ast.FuncType")) 0 false)
        = Done (EmptyString, Some e))
  /\ (exists e, ConvertParsed rootDirName badtop_tree = Done (EmptyString, Some e)).
Proof.
  repeat split; try (vm_compute; reflexivity); eexists; reflexivity.
Qed.

(** C6, evaluated at the failing input. After a comment has been emitted
    the flag [lastWasComment] stays set, so the declaration B that follows
    the declaration A gets no separator; without the comment the same two
    declarations are separated by a blank line. *)
Theorem C6_separator_lost_after_comment (rootDirName : string) :
  ConvertParsed rootDirName comment_tree
  = Done ("// c" +:+ nl +:+ "export type A = number"
          +:+ "export type B = number", None)
  /\ ConvertParsed rootDirName two_decls_tree
    = Done ("export type A = number" +:+ nl +:+ nl
            +:+ "export type B = number", None).
Proof. split; vm_compute; reflexivity. Qed.

End ConvertFacts.

(** ** The aggregation entry point *)

(** The path failures that do return: a missing path, a path that is not a
    directory and a directory that cannot be listed give an error and the
    empty text. *)
Lemma ReadTypes_path_errors `{GoOS} (rootDirName packagePath : string) :
  rootDirName <> EmptyString ->
  (forall err, os_Stat packagePath = inl err -> os_IsNotExist err = true ->
     ReadTypes rootDirName packagePath
     = Done (EmptyString, Some (Bubble (Some err) "path does not exist")))
  /\ (os_Stat packagePath = inr false ->
      ReadTypes rootDirName packagePath
      = Done (EmptyString, Some (Bubble None "path is not a directory")))
  /\ (forall err, os_Stat packagePath = inr true -> os_ReadDir packagePath = inl err ->
      ReadTypes rootDirName packagePath
      = Done (EmptyString, Some (Bubble (Some err) "could not read directory"))).
Proof.
  intros Hroot. apply String.eqb_neq in Hroot. unfold ReadTypes. rewrite Hroot.
  repeat split.
  - intros err -> ->. reflexivity.
  - intros ->. reflexivity.
  - intros err -> ->. reflexivity.
Qed.

(** C7, evaluated at the failing inputs. When [os.Stat] fails with an error
    that is not a not-exist error, the entry point does not return: it calls
    a method on the nil file information and panics. *)
Theorem C7_stat_failure_panics `{GoOS} (rootDirName packagePath : string) (err : error) :
  rootDirName <> EmptyString ->
  os_Stat packagePath = inl err ->
  os_IsNotExist err = false ->
  ReadTypes rootDirName packagePath = Panic "nil pointer dereference".
Proof.
  intros Hroot Hstat Hne. unfold ReadTypes.
  apply String.eqb_neq in Hroot. by rewrite Hroot, Hstat, Hne.
Qed.

(** ** Closed instances and counterexamples *)

(** C2 at the root namespace app. *)
Lemma C2_user_struct_witness :
  @Convert plainLib "app" (declParser user_src user_tree) user_src
  = Done (user_ts, None).
Proof.
  apply (@C2_user_struct plainLib (declParser user_src user_tree) "app").
  - discriminate.
  - eexists. reflexivity.
  - eexists. vm_compute. reflexivity.
  - vm_compute. reflexivity.
Defined.

(** C4 refuted: the declaration is not emitted on the named-array path. *)
Lemma C4_counterexample :
  @Convert plainLib "app" (declParser id_src id_tree) id_src
  = Done ("export type ID = string", None)
  /\ @Convert plainLib "app" (declParser id_src id_tree) id_src
     <> Done ("export type ID extends Array<byte> {}", None).
Proof. split; [vm_compute; reflexivity | vm_compute; discriminate]. Qed.

(** C7 at a path whose stat is denied. *)
Lemma C7_stat_failure_panics_witness :
  @ReadTypes deniedOS "app" "/srv/private" = Panic "nil pointer dereference".
Proof.
  apply (@C7_stat_failure_panics deniedOS "app" "/srv/private"
           (LibErr "os" "permission denied")).
  - discriminate.
  - reflexivity.
  - reflexivity.
Defined.


(** C9 refuted: after the pass the field Age has the type int, not *int. *)
Lemma C9_counterexample :
  exists b' fs' e,
    @writeFields plainLib EmptyString age_fields 0 = Done (b', fs', e)
    /\ map Type_ fs' <> map Type_ age_fields.
Proof.
  exists ("  Age?: number;" +:+ nl), [mkField ["Age"] (Ident "int") None], None.
  split; [vm_compute; reflexivity | discriminate].
Qed.

(** C10 at a name that starts with the two-byte encoding of a non-ASCII
    upper-case letter (bytes 195 and 145), between two exported fields. *)
Lemma C10_unexported_field_skipped_witness :
  let hidden :=
    mkField [String (ascii_of_nat 195) (String (ascii_of_nat 145) "ame")]
            (Ident "string") None in
  output (@writeFields plainLib EmptyString
            ([mkField ["A"] (Ident "int") None] ++ hidden
             :: [mkField ["B"] (Ident "bool") None]) 0)
  = output (@writeFields plainLib EmptyString
              ([mkField ["A"] (Ident "int") None]
               ++ [mkField ["B"] (Ident "bool") None]) 0).
Proof.
  intros hidden.
  apply (@C10_unexported_field_skipped plainLib hidden).
  right. reflexivity.
Defined.

(** * Further properties of the type compiler *)

Section TypeCompilerMore.
Context `{GoLib}.

(** X1. [writeType] and [writeFields] only append to the builder: what they
    return for a builder holding [b] is what they return for an empty builder
    with [b] put in front, the tree and the error being the same. *)
Theorem X1_builder_only_appended b d :
  (forall t p, writeType b t d p = prepend b (writeType EmptyString t d p))
  /\ (forall fs, writeFields b fs d = prepend b (writeFields EmptyString fs d)).
Proof.
  split.
  - intros t p. apply appends_all.
  - intros fs. apply writeFields_appends_from, Forall_forall.
    intros f _. apply appends_all.
Qed.

Lemma none_not_some {A} : @is_Some A None <-> false = true.
Proof. split; [by intros [? [=]]|done]. Qed.

Lemma some_is_some {A} (a : A) : is_Some (Some a) <-> true = true.
Proof. split; eauto. Qed.

Lemma writeType_error_iff t : errs_iff_unhandled t.
Proof.
  revert t. apply (Expr_nested_ind errs_iff_unhandled); unfold errs_iff_unhandled.
  - intros n b d p b' t' e. cbn. intros [= <- <- <-]. apply none_not_some.
  - intros x IH b d p b' t' e. cbn -[String.append].
    destruct (writeType_rec x _ d false) as [[[o x'] [e1|]]|w] eqn:E;
      cbn -[String.append]; intros [= <- <- <-];
      rewrite <- (IH _ _ _ _ _ _ E).
    + split; eauto.
    + split; by intros [? [=]].
  - intros x IH b d p b' t' e. cbn -[String.append].
    destruct (isByteIdent x).
    { intros [= <- <- <-]. apply none_not_some. }
    destruct (writeType_rec x _ d true) as [[[o x'] [e1|]]|w] eqn:E;
      cbn -[String.append]; intros [= <- <- <-];
      rewrite <- (IH _ _ _ _ _ _ E).
    + split; eauto.
    + split; by intros [? [=]].
  - intros fs _ b d p b' t' e. cbn -[String.append].
    destruct (writeFields_with writeType_rec fs _ (d + 1)) as [[[o r] e1]|w];
      cbn -[String.append]; intros [= <- <- <-].
    apply none_not_some.
  - intros x s _ b d p b' t' e. cbn -[String.append]. intros [= <- <- <-].
    apply none_not_some.
  - intros k v IHk IHv b d p b' t' e. cbn -[String.append].
    destruct (writeType_rec k _ d false) as [[[o k'] [e1|]]|w] eqn:Ek;
      cbn -[String.append].
    + intros [= <- <- <-].
      assert (unhandled k = true) as -> by (apply (IHk _ _ _ _ _ _ Ek); eauto).
      apply some_is_some.
    + assert (unhandled k = false) as ->.
      { pose proof (IHk _ _ _ _ _ _ Ek) as I.
        destruct (unhandled k); [|done].
        destruct I as [_ I]. by destruct (I eq_refl) as [? [=]]. }
      destruct (writeType_rec v _ d false) as [[[o2 v'] [e2|]]|w] eqn:Ev;
        cbn -[String.append]; intros [= <- <- <-];
        rewrite <- (IHv _ _ _ _ _ _ Ev).
      * split; eauto.
      * split; by intros [? [=]].
    + discriminate.
  - intros b d p b' t' e. cbn. intros [= <- <- <-]. apply none_not_some.
  - intros b d p b' t' e. cbn. intros [= <- <- <-]. apply none_not_some.
  - intros dt b d p b' t' e. cbn -[String.append]. intros [= <- <- <-].
    apply some_is_some.
Qed.

(** X2. When [writeType] returns, it returns an error exactly when the type
    holds a shape without translation rule that is reached through pointers,
    slices other than byte slices, and maps; nothing inside a struct type
    ever makes it fail. *)
Theorem X2_writeType_fails_iff_unhandled t b d p b' t' e :
  writeType b t d p = Done (b', t', e) -> (is_Some e <-> unhandled t = true).
Proof. apply writeType_error_iff. Qed.

(** X3. The only error that [writeFields] returns is a tag parse error with
    its context string; an error of a field's type never comes out of it. *)
Theorem X3_writeFields_only_tag_errors fs : forall b d b' fs' e,
  writeFields b fs d = Done (b', fs', Some e) ->
  exists cause, e = Bubble (Some cause) "could not parse struct tag".
Proof.
  unfold writeFields.
  induction fs as [|f fs IH]; intros b d b' fs' e.
  - cbn. discriminate.
  - rewrite writeFields_with_cons.
    destruct (fieldHead f) as [|e0|w|name opt] eqn:Hh.
    + destruct (writeFields_with writeType_rec fs b d) as [[[o r] e1]|w] eqn:E;
        cbn; [|discriminate].
      intros [= <- <- ->]. by eapply IH.
    + intros [= <- <- <-].
      unfold fieldHead in Hh. repeat case_match; simplify_eq. eauto.
    + discriminate.
    + cbn zeta.
      destruct (writeType_rec (pointee (Type_ f)) _ d false)
        as [[[o t'] e1]|w]; cbn -[String.append]; [|discriminate].
      destruct (writeFields_with writeType_rec fs _ d) as [[[o2 r] e2]|w] eqn:E2;
        cbn; [|discriminate].
      intros [= <- <- ->]. by eapply IH.
Qed.

Lemma writeFields_calm fs :
  Forall (fun f => calm_ok (pointee (Type_ f))) fs ->
  forallb (fun f => negb (crashes (fieldHead f))
                    && match f with mkField _ ty _ => calm ty end) fs = true ->
  forall b d, exists r, writeFields_with writeType_rec fs b d = Done r.
Proof.
  induction 1 as [|f fs Hf _ IH]; intros Hc b d.
  - cbn. eauto.
  - cbn [forallb] in Hc. apply andb_true_iff in Hc as [Hf' Hc].
    apply andb_true_iff in Hf' as [Hcr Hty].
    rewrite writeFields_with_cons.
    destruct (fieldHead f) as [|e0|w|name opt]; [| |done|].
    + destruct (IH Hc b d) as [[[o r] e] ->]. cbn. eauto.
    + eauto.
    + cbn zeta.
      assert (calm (pointee (Type_ f)) = true) as Hp.
      { destruct f as [n ty tg]. cbn [Type_]. by destruct ty. }
      match goal with |- context [writeType_rec _ ?b0 d false] =>
        destruct (Hf Hp b0 d false) as [[[o t'] e] ->] end.
      cbn -[String.append].
      destruct (IH Hc (o +:+ ";" +:+ nl) d) as [[[o2 r] e2] ->]. cbn. eauto.
Qed.

Lemma writeType_calm t : calm_ok t /\ calm_ok (pointee t).
Proof.
  revert t. apply (Expr_nested_ind (fun t => calm_ok t /\ calm_ok (pointee t)));
    unfold calm_ok.
  - intros n. split; intros _ b d p; cbn; eauto.
  - intros x [IH _]. split; [|exact IH]. intros Hc b d p. cbn -[String.append].
    match goal with |- context [writeType_rec x ?b0 d false] =>
      destruct (IH Hc b0 d false) as [[[o x'] [e|]] ->] end;
      cbn -[String.append]; eauto.
  - intros x [IH _].
    assert (calm_ok (ArrayType x)) as A; [|by split].
    intros Hc b d p. cbn -[String.append].
    destruct (isByteIdent x); [eauto|].
    destruct (IH Hc b d true) as [[[o x'] [e|]] ->]; cbn -[String.append]; eauto.
  - intros fs IH.
    assert (calm_ok (StructType fs)) as A; [|by split].
    intros Hc b d p. cbn -[String.append].
    assert (Forall (fun f => calm_ok (pointee (Type_ f))) fs) as F.
    { eapply Forall_impl; [exact IH|]. by intros f [_ ?]. }
    destruct (writeFields_calm fs F Hc (b +:+ "{" +:+ nl) (d + 1)) as [[[o r] e] ->].
    cbn -[String.append]. eauto.
  - intros x s _. split; intros _ b d p; cbn -[String.append]; eauto.
  - intros k v [IHk _] [IHv _].
    assert (calm_ok (MapType k v)) as A; [|by split].
    intros Hc b d p. cbn [calm] in Hc. apply andb_true_iff in Hc as [Hk Hv].
    cbn -[String.append].
    destruct (IHk Hk (b +:+ "{ [key: ") d false) as [[[o k'] [e|]] ->];
      cbn -[String.append]; eauto.
    destruct (IHv Hv (o +:+ "]: ") d false) as [[[o2 v'] [e|]] ->];
      cbn -[String.append]; eauto.
  - split; intros _ b d p; cbn -[String.append]; eauto.
  - split; intros _ b d p; cbn -[String.append]; eauto.
  - intros dt. split; intros _ b d p; cbn -[String.append]; eauto.
Qed.

(** X4. [writeType] can panic only in the head of the field loop (a tag
    literal shorter than its two quotes, a nil tag set): on a type none of
    whose fields, at any depth, has such a tag it always returns. *)
Theorem X4_writeType_returns_when_calm t b d p :
  calm t = true -> exists r, writeType b t d p = Done r.
Proof. intros Hc. by apply writeType_calm. Qed.

Lemma writeFields_skip f pre post b d :
  fieldHead f = Skip ->
  output (writeFields b (pre ++ f :: post) d)
  = output (writeFields b (pre ++ post) d).
Proof.
  intros U. unfold writeFields. revert b.
  induction pre as [|g pre IH]; intros b.
  - cbn [app]. rewrite writeFields_with_cons, U. apply output_bind_cons.
  - cbn [app]. rewrite !writeFields_with_cons.
    destruct (fieldHead g) as [|e|w|name opt]; try reflexivity.
    + rewrite !output_bind_cons. apply IH.
    + cbn zeta.
      destruct (writeType_rec (pointee (Type_ g)) _ d false) as [[[o t'] e]|w];
        [|reflexivity].
      cbn -[String.append]. rewrite !output_bind_cons. apply IH.
Qed.

Lemma fieldHead_omitted f v tags jt :
  exported (fieldName f) = true ->
  Tag f = Some v ->
  (2 <= GoString.len v)%nat ->
  structtag.Parse (String.substring 1 (GoString.len v - 2) v) = structtag.ParseOk tags ->
  structtag.Get tags "json" = Some jt ->
  structtag.Name jt = "-" ->
  fieldHead f = Skip.
Proof.
  intros He Ht Hl Hp Hg Hn. unfold fieldHead. rewrite He, Ht. cbn [negb].
  assert ((GoString.len v <? 2)%nat = false) as -> by (apply Nat.ltb_ge; lia).
  by rewrite Hp, Hg, Hn.
Qed.

(** X5. An exported field whose json tag has the name - leaves no trace:
    the text and the error are those of the field list without it, whatever
    its type and the rest of its tag. *)
Theorem X5_omit_sentinel_field_skipped f v tags jt pre post b d :
  exported (fieldName f) = true ->
  Tag f = Some v ->
  (2 <= GoString.len v)%nat ->
  structtag.Parse (String.substring 1 (GoString.len v - 2) v) = structtag.ParseOk tags ->
  structtag.Get tags "json" = Some jt ->
  structtag.Name jt = "-" ->
  output (writeFields b (pre ++ f :: post) d)
  = output (writeFields b (pre ++ post) d).
Proof. intros. eapply writeFields_skip, fieldHead_omitted; eauto. Qed.

(** the line of an emitted field, for any declared type *)
Lemma field_line names ty tag name opt b d rest txt ty' e :
  fieldHead (mkField names ty tag) = Emit name opt ->
  writeType EmptyString (pointee ty) d false = Done (txt, ty', e) ->
  writeFields b (mkField names ty tag :: rest) d
  = ('(b', rest', err) ←
       writeFields (b +:+ indent d +:+ quoteName name
                    +:+ optMark (isStar ty || opt) +:+ ": " +:+ txt +:+ ";" +:+ nl)
                   rest d;
     Done (b', mkField names ty' tag :: rest', err)).
Proof.
  intros Hhead HT.
  unfold writeFields. rewrite writeFields_with_cons, Hhead.
  cbn -[String.append].
  change (writeType_rec ?t ?x d false) with (writeType x t d false).
  rewrite writeType_appends, HT. cbn -[String.append].
  assert (match ty with StarExpr _ => true | _ => opt end = (isStar ty || opt)) as ->
    by (by destruct ty).
  destruct (isStar ty || opt); cbn [optMark]; rewrite ?app_assoc_s, ?app_empty_l;
    reflexivity.
Qed.

Lemma writeType_struct fs d p body fs' e :
  writeFields EmptyString fs (d + 1) = Done (body, fs', e) ->
  writeType EmptyString (StructType fs) d p
  = Done ("{" +:+ nl +:+ body +:+ indent d +:+ "};", StructType fs', None).
Proof.
  intros Hb. unfold writeType. cbn -[String.append].
  change (writeFields_with writeType_rec fs ?b ?d)
    with (writeFields b fs d).
  rewrite writeFields_appends, Hb. cbn -[String.append].
  by rewrite ?app_assoc_s, ?app_empty_l.
Qed.

(** X7. An emitted field of struct type is written as the name and an
    opening brace, the lines of the nested fields one level deeper, and then
    the field's own indentation followed by a closing brace and two
    semicolons: one from the struct rule and one from the field rule. *)
Theorem X7_struct_field_line names fs tag name opt b d rest body fs' e :
  fieldHead (mkField names (StructType fs) tag) = Emit name opt ->
  writeFields EmptyString fs (d + 1) = Done (body, fs', e) ->
  writeFields b (mkField names (StructType fs) tag :: rest) d
  = ('(b', rest', err) ←
       writeFields (b +:+ indent d +:+ quoteName name +:+ optMark opt
                    +:+ ": {" +:+ nl +:+ body +:+ indent d +:+ "};;" +:+ nl) rest d;
     Done (b', mkField names (StructType fs') tag :: rest', err)).
Proof.
  intros Hhead Hb.
  rewrite (field_line names (StructType fs) tag name opt b d rest _ _ None Hhead
             (writeType_struct fs d false body fs' e Hb)).
  cbn [isStar orb]. rewrite ?app_assoc_s. reflexivity.
Qed.

(** X8. The texts of pointer, slice and map types are built from the texts
    of their parts: a pointer adds | undefined, within parentheses when it
    is the element of a slice; a slice that is not a byte slice adds [];
    a map is an index signature over the texts of key and value. *)
Theorem X8_pointer_slice_map_texts (d : Z) :
  (forall x txt x' p b,
     writeType EmptyString x d false = Done (txt, x', None) ->
     writeType b (StarExpr x) d p
     = Done (b +:+ (if p then "(" +:+ txt +:+ " | undefined)"
                    else txt +:+ " | undefined"),
             StarExpr x', None))
  /\ (forall x txt x' p b,
        isByteIdent x = false ->
        writeType EmptyString x d true = Done (txt, x', None) ->
        writeType b (ArrayType x) d p = Done (b +:+ txt +:+ "[]", ArrayType x', None))
  /\ (forall k v tk tv k' v' p b,
        writeType EmptyString k d false = Done (tk, k', None) ->
        writeType EmptyString v d false = Done (tv, v', None) ->
        writeType b (MapType k v) d p
        = Done (b +:+ "{ [key: " +:+ tk +:+ "]: " +:+ tv +:+ "}", MapType k' v', None)).
Proof.
  unfold writeType. repeat split.
  - intros x txt x' p b Hx. cbn -[String.append].
    rewrite (proj1 (appends_all x)), Hx. cbn -[String.append].
    destruct p; by rewrite ?app_assoc_s.
  - intros x txt x' p b Hb Hx. cbn -[String.append]. rewrite Hb.
    rewrite (proj1 (appends_all x)), Hx. cbn -[String.append].
    by rewrite ?app_assoc_s.
  - intros k v tk tv k' v' p b Hk Hv. cbn -[String.append].
    rewrite (proj1 (appends_all k)), Hk. cbn -[String.append].
    rewrite (proj1 (appends_all v)), Hv. cbn -[String.append].
    by rewrite ?app_assoc_s.
Qed.

(** X9. The primitive mapping is idempotent: a name it produces is never
    mapped again. *)
Theorem X9_convertType_idempotent s : convertType (convertType s) = convertType s.
Proof.
  assert (convertType s = "boolean" \/ convertType s = "number"
          \/ convertType (convertType s) = convertType s) as [E|[E|E]].
  { unfold convertType at 1 2 4.
    destruct (String.eqb s "bool") eqn:E1; [by left|].
    destruct (existsb _ _) eqn:E2; [by right; left|].
    right; right. unfold convertType. by rewrite E1, E2. }
  - by rewrite E.
  - by rewrite E.
  - exact E.
Qed.

Lemma runes_plainAscii s :
  plainAscii s = true -> map fst (GoString.runes s) = bytesOf s.
Proof.
  unfold GoString.runes, GoString.len.
  induction s as [|c s IH]; [reflexivity|].
  cbn [plainAscii]. intros Hp.
  apply andb_true_iff in Hp as [Hp Hs]. apply andb_true_iff in Hp as [Hlt _].
  cbn [String.length GoString.runes_go]. unfold GoString.DecodeRune.
  rewrite Hlt. cbn [map fst bytesOf]. by rewrite IH.
Qed.

Lemma splitLines_plainAscii s :
  plainAscii s = true -> splitLines (bytesOf s) = [bytesOf s].
Proof.
  induction s as [|c s IH]; [reflexivity|].
  cbn [plainAscii]. intros Hp.
  apply andb_true_iff in Hp as [Hp Hs]. apply andb_true_iff in Hp as [_ Hnl].
  cbn [bytesOf splitLines]. apply negb_true_iff in Hnl. rewrite Hnl.
  by rewrite (IH Hs).
Qed.

Lemma identPart_ascii s :
  plainAscii s = true -> forallb identPart (bytesOf s) = asciiIdentRest s.
Proof.
  induction s as [|c s IH]; [reflexivity|].
  cbn [plainAscii]. intros Hp.
  apply andb_true_iff in Hp as [Hp Hs]. apply andb_true_iff in Hp as [Hlt _].
  cbn [bytesOf forallb asciiIdentRest]. rewrite (IH Hs).
  unfold identPart, isL, isN. by rewrite Hlt.
Qed.

Lemma validJSName_plainAscii s :
  plainAscii s = true -> validJSName s = asciiIdent s.
Proof.
  intros Hp. unfold validJSName.
  rewrite (runes_plainAscii s Hp), (splitLines_plainAscii s Hp).
  cbn [existsb]. rewrite orb_false_r.
  destruct s as [|c s]; [reflexivity|].
  cbn [plainAscii] in Hp.
  apply andb_true_iff in Hp as [Hp Hs]. apply andb_true_iff in Hp as [Hlt _].
  cbn [bytesOf identLine asciiIdent]. rewrite (identPart_ascii s Hs).
  unfold identStart, isL. by rewrite Hlt.
Qed.

(** X10. An emitted name of ASCII bytes without a newline is written bare
    when it is a letter or underscore followed by letters, digits and
    underscores, and between single quotes otherwise. *)
Theorem X10_ascii_name_quoting s :
  plainAscii s = true ->
  quoteName s = if asciiIdent s then s else sq +:+ s +:+ sq.
Proof.
  intros Hp. unfold quoteName. rewrite (validJSName_plainAscii s Hp).
  by destruct (asciiIdent s).
Qed.

Lemma writeFields_app l1 l2 b d :
  writeFields b (l1 ++ l2) d
  = ('(b1, l1', e1) ← writeFields b l1 d;
     match e1 with
     | Some e => Done (b1, l1' ++ l2, Some e)
     | None =>
         '(b2, l2', e2) ← writeFields b1 l2 d;
         Done (b2, l1' ++ l2', e2)
     end).
Proof.
  unfold writeFields. revert b.
  induction l1 as [|f l1 IH]; intros b.
  - cbn [app].
    change (writeFields_with writeType_rec [] b d)
      with (Done (b, @nil Field, @None error)).
    cbn [mbind Res_bind bind].
    by destruct (writeFields_with writeType_rec l2 b d) as [[[o r] e]|w].
  - cbn [app]. rewrite !writeFields_with_cons.
    destruct (fieldHead f) as [|e0|w|name opt]; try reflexivity.
    + rewrite IH.
      destruct (writeFields_with writeType_rec l1 b d) as [[[o r] [e|]]|w];
        cbn -[writeFields_with]; try reflexivity.
      by destruct (writeFields_with writeType_rec l2 o d) as [[[o2 r2] e2]|w].
    + cbn zeta.
      destruct (writeType_rec (pointee (Type_ f)) _ d false) as [[[o t'] e]|w];
        [|reflexivity].
      cbn -[String.append writeFields_with]. rewrite IH.
      destruct (writeFields_with writeType_rec l1 _ d) as [[[o1 r] [e1|]]|w];
        cbn -[writeFields_with]; try reflexivity.
      by destruct (writeFields_with writeType_rec l2 o1 d) as [[[o2 r2] e2]|w].
Qed.

(** X11. A field whose tag does not parse ends the field loop: the lines of
    the fields before it stay in the builder, the tag error is returned, and
    the fields after it are neither written nor changed. *)
Theorem X11_bad_tag_stops_field_loop f e pre post b d b' pre' :
  fieldHead f = Fail e ->
  writeFields b pre d = Done (b', pre', None) ->
  writeFields b (pre ++ f :: post) d = Done (b', pre' ++ f :: post, Some e).
Proof.
  intros Hf Hpre. rewrite writeFields_app, Hpre. cbn -[writeFields].
  unfold writeFields. rewrite writeFields_with_cons, Hf. reflexivity.
Qed.

End TypeCompilerMore.

(** * Further properties of the traversal and the entry points *)

Section InspectFacts.
Context {St : Type} (f : Node -> St -> Res (St * bool)).

Lemma walkList_app l1 l2 st :
  walkList f (l1 ++ l2) st = (st' ← walkList f l1 st; walkList f l2 st').
Proof.
  revert st. induction l1 as [|c l1 IH]; intros st; [reflexivity|].
  cbn [app walkList]. destruct (Inspect f c st) as [st1|w]; [|reflexivity].
  cbn. apply IH.
Qed.

Lemma Inspect_leaf n st :
  (match n with NOther _ => False | _ => True end) ->
  Inspect f n st = ('(st1, _) ← f n st; Done st1).
Proof.
  intros Hn. destruct n; try done; cbn;
    destruct (f _ st) as [[st1 []]|w]; reflexivity.
Qed.

Variable R : St -> St -> Prop.
Hypothesis R_refl : forall st, R st st.
Hypothesis R_trans : forall a b c, R a b -> R b c -> R a c.
Hypothesis R_step : forall n st st' d, f n st = Done (st', d) -> R st st'.

Lemma walkList_preserves_from l :
  Forall (fun n => forall st st', Inspect f n st = Done st' -> R st st') l ->
  forall st st', walkList f l st = Done st' -> R st st'.
Proof.
  induction 1 as [|c l Hc _ IH]; intros st st'.
  - cbn. intros [= <-]. apply R_refl.
  - cbn [walkList]. destruct (Inspect f c st) as [st1|w] eqn:E; [|discriminate].
    cbn. intros E2. eapply R_trans; [by eapply Hc | by eapply IH].
Qed.

(** a relation that every visit respects holds between the states before
    and after a whole traversal *)
Lemma Inspect_preserves n : forall st st', Inspect f n st = Done st' -> R st st'.
Proof.
  induction n as [a b|a|a|a|a b|cs IH] using Node_nested_ind; intros st st';
    try (rewrite Inspect_leaf by done;
         destruct (f _ st) as [[st1 d]|w] eqn:E; cbn; [|discriminate];
         intros [= <-]; by eapply R_step).
  rewrite Inspect_other.
  destruct (f (NOther cs) st) as [[st1 d]|w] eqn:E; cbn; [|discriminate].
  destruct d.
  - intros E2. eapply R_trans; [by eapply R_step|].
    by eapply walkList_preserves_from.
  - intros [= <-]. by eapply R_step.
Qed.

Lemma walkList_preserves l st st' : walkList f l st = Done st' -> R st st'.
Proof.
  apply walkList_preserves_from, Forall_forall. intros n _. apply Inspect_preserves.
Qed.
End InspectFacts.

Section ConvertMore.
Context `{GoLib}.
Variable rootDirName : string.

Lemma writeTypeOpt_appends b t d p :
  writeTypeOpt b t d p
  = match writeTypeOpt EmptyString t d p with
    | Done (o, e) => Done (b +:+ o, e)
    | Panic w => Panic w
    end.
Proof.
  destruct t as [t|]; cbn -[String.append]; [|by rewrite app_empty_r].
  rewrite writeType_appends.
  by destruct (writeType EmptyString t d p) as [[[o t'] e]|w].
Qed.

Lemma convertVisit_appends n st st' d :
  convertVisit rootDirName n st = Done (st', d) -> exists s, ts st' = ts st +:+ s.
Proof.
  destruct n as [a b|a|a|a|a b|cs]; cbn -[String.append].
  - intros [= <- <-]. cbn. eauto.
  - intros [= <- <-]. cbn. exists EmptyString. by rewrite app_empty_r.
  - intros [= <- <-]. cbn -[String.append].
    destruct (negb (first st)); rewrite ?app_assoc_s; eauto.
  - intros [= <- <-]. cbn -[String.append].
    destruct (negb (first st)); rewrite ?app_assoc_s; eauto.
  - destruct (isInterfaceType b).
    + intros [= <- <-]. cbn -[String.append]. eauto.
    + rewrite writeTypeOpt_appends.
      destruct (writeTypeOpt EmptyString b (-1) false) as [[o [e|]]|w];
        cbn -[String.append]; [| |discriminate];
        intros [= <- <-]; cbn -[String.append];
        destruct (negb (first st) && negb (lastWasComment st));
        rewrite ?app_assoc_s; eauto.
  - intros [= <- <-]. exists EmptyString. by rewrite app_empty_r.
Qed.

(** X12. The traversal of [Convert] only appends to the output: whatever
    tree it walks, from whatever state, the text it ends with begins with
    the text it started from. *)
Theorem X12_traversal_only_appends n st st' :
  Inspect (convertVisit rootDirName) n st = Done st' ->
  exists s, ts st' = ts st +:+ s.
Proof.
  apply (Inspect_preserves (convertVisit rootDirName)
           (fun a b => exists s, ts b = ts a +:+ s)).
  - intros a. exists EmptyString. by rewrite app_empty_r.
  - intros a b c [s1 E1] [s2 E2]. exists (s1 +:+ s2).
    by rewrite E2, E1, app_assoc_s.
  - intros m a b d E. by eapply convertVisit_appends.
Qed.

Lemma convertVisit_sticky n st st' d :
  convertVisit rootDirName n st = Done (st', d) ->
  is_Some (builderErr st) -> is_Some (builderErr st').
Proof.
  destruct n as [a b|a|a|a|a b|cs]; cbn -[String.append];
    try (by intros [= <- <-]).
  destruct (isInterfaceType b); [by intros [= <- <-]|].
  destruct (writeTypeOpt _ b (-1) false) as [[o [e|]]|w];
    cbn -[String.append]; [| |discriminate]; intros [= <- <-]; cbn; eauto.
Qed.

Lemma walkList_sticky l st st' :
  walkList (convertVisit rootDirName) l st = Done st' ->
  is_Some (builderErr st) -> is_Some (builderErr st').
Proof.
  apply (walkList_preserves (convertVisit rootDirName)
           (fun a b => is_Some (builderErr a) -> is_Some (builderErr b))); eauto.
  intros m a b d. apply convertVisit_sticky.
Qed.

Lemma unhandled_not_interface t :
  unhandled t = true -> isInterfaceType (Some t) = false.
Proof. by destruct t. Qed.

Lemma failing_TypeSpec_sets_error nm t st st' :
  unhandled t = true ->
  Inspect (convertVisit rootDirName) (NTypeSpec nm (Some t)) st = Done st' ->
  is_Some (builderErr st').
Proof.
  intros U. rewrite Inspect_leaf by done. unfold convertVisit.
  rewrite (unhandled_not_interface t U). cbn -[String.append].
  destruct (writeType _ t (-1) false) as [[[o t'] e]|w] eqn:E;
    cbn -[String.append]; [|discriminate].
  apply writeType_error_iff in E. apply E in U as [e0 ->].
  cbn. intros [= <-]. cbn. eauto.
Qed.

Lemma reach_sets_error n nm t :
  unhandled t = true ->
  Within n (NTypeSpec nm (Some t)) ->
  forall st st', Inspect (convertVisit rootDirName) n st = Done st' ->
                 is_Some (builderErr st').
Proof.
  intros U W. remember (NTypeSpec nm (Some t)) as m eqn:Em.
  induction W as [n|cs c m Hin W IH]; intros st st'.
  - subst n. by apply failing_TypeSpec_sets_error.
  - rewrite Inspect_other. cbn.
    apply list_elem_of_split in Hin as (l1 & l2 & ->).
    rewrite walkList_app.
    destruct (walkList _ l1 st) as [st1|w]; cbn; [|discriminate].
    destruct (Inspect _ c st1) as [st2|w] eqn:E2; cbn; [|discriminate].
    intros E3. eapply walkList_sticky; [exact E3|]. by eapply IH.
Qed.

(** X13. A type specification whose type fails in the type compiler, at
    whatever place of the tree, makes the whole translation fail: what is
    returned is an error and the empty text, however many declarations were
    emitted before it and after it. *)
Theorem X13_failing_declaration_aborts parsed nm t txt err :
  unhandled t = true ->
  Within parsed (NTypeSpec nm (Some t)) ->
  ConvertParsed rootDirName parsed = Done (txt, err) ->
  txt = EmptyString /\ is_Some err.
Proof.
  intros U W. unfold ConvertParsed.
  destruct (Inspect _ parsed _) as [st|w] eqn:E; cbn; [|discriminate].
  destruct (reach_sets_error parsed nm t U W _ _ E) as [e ->].
  intros [= <- <-]. eauto.
Qed.

(** X14. Whenever [Convert] returns an error, the text it returns with it
    is empty. *)
Theorem X14_Convert_error_has_no_text `{GoParser} goStructs txt e :
  Convert rootDirName goStructs = Done (txt, Some e) -> txt = EmptyString.
Proof.
  unfold Convert.
  destruct (String.eqb rootDirName EmptyString); [by intros [= <-]|].
  destruct (_ =? 0)%nat; [discriminate|].
  destruct (parseGo _) as [e0|parsed]; [by intros [= <-]|].
  unfold ConvertParsed.
  destruct (Inspect _ parsed _) as [st|w]; cbn; [|discriminate].
  destruct (builderErr st); [by intros [= <-]|discriminate].
Qed.

Lemma declNode_step d st :
  compiles d ->
  lastWasComment st = false ->
  Inspect (convertVisit rootDirName) (declNode d) st
  = Done (mkConvertState
            ((if first st then ts st else ts st +:+ blankLine) +:+ declOut d)
            (name st) false false (builderErr st)).
Proof.
  destruct d as [[nm t] txt]. intros [Hi [t' Ht]] Hl.
  unfold declNode, typeDecl, DeclStmt, GenDecl. cbn [fst snd].
  rewrite Inspect_other. cbn [convertVisit mbind Res_bind bind walkList].
  rewrite Inspect_other. cbn [convertVisit mbind Res_bind bind walkList].
  rewrite Inspect_leaf by done. unfold convertVisit.
  rewrite Hi. cbn -[String.append].
  rewrite writeType_appends, Ht, Hl. cbn -[String.append].
  unfold declOut, declText, blankLine, tsTypePrefix. cbn [fst snd].
  destruct st as [t0 n0 [] l0 e0]; cbn -[String.append] in *;
    rewrite ?app_assoc_s; reflexivity.
Qed.

Lemma walk_decls ds : forall st,
  Forall compiles ds ->
  lastWasComment st = false ->
  walkList (convertVisit rootDirName) (map declNode ds) st
  = Done (match ds with
          | [] => st
          | _ =>
              mkConvertState
                ((if first st then ts st else ts st +:+ blankLine)
                 +:+ String.concat blankLine (map declOut ds))
                (name st) false false (builderErr st)
          end).
Proof.
  induction ds as [|d ds IH]; intros st Hc Hl; [reflexivity|].
  apply Forall_cons in Hc as [Hd Hc].
  cbn [map walkList]. rewrite (declNode_step d st Hd Hl). cbn [mbind Res_bind bind].
  rewrite IH by done. cbn -[String.append String.concat].
  destruct ds as [|d2 ds]; [reflexivity|].
  cbn -[String.append]. by rewrite ?app_assoc_s.
Qed.

(** X15. A list of type declarations without comments, each of which is not
    an interface and compiles, is translated to the declarations' texts
    export type name = text, in order, with exactly one blank line between
    two of them and nothing before the first or after the last. *)
Theorem X15_blank_line_between_declarations ds :
  Forall compiles ds ->
  ConvertParsed rootDirName (wrapped (map (fun d => typeDecl d.1.1 d.1.2) ds))
  = Done (String.concat blankLine (map declOut ds), None).
Proof.
  intros Hc. unfold ConvertParsed, wrapped, File, FuncDecl, FuncType, FieldList,
    BlockStmt.
  rewrite Inspect_other. cbn [convertVisit mbind Res_bind bind walkList].
  rewrite (Inspect_leaf _ (NIdent "main")) by done. cbn [convertVisit mbind Res_bind bind].
  rewrite Inspect_other. cbn [convertVisit mbind Res_bind bind walkList].
  rewrite (Inspect_leaf _ (NIdent "main")) by done. cbn [convertVisit mbind Res_bind bind].
  rewrite Inspect_other. cbn [convertVisit mbind Res_bind bind walkList].
  rewrite Inspect_other. cbn [convertVisit mbind Res_bind bind walkList].
  rewrite Inspect_other. cbn [convertVisit mbind Res_bind bind].
  rewrite map_map.
  change (map (fun x => DeclStmt (typeDecl x.1.1 x.1.2)) ds) with (map declNode ds).
  rewrite walk_decls by done.
  destruct ds; reflexivity.
Qed.

End ConvertMore.

Lemma TrimLeftSpace_allSpace s : forall fuel,
  (GoString.len s <= fuel)%nat -> allSpace s = true ->
  GoString.TrimLeftSpace_go fuel s = EmptyString.
Proof.
  induction s as [|c s IH]; intros fuel Hf Ha.
  - by destruct fuel.
  - cbn [allSpace] in Ha. apply andb_true_iff in Ha as [Hc Ha].
    destruct fuel as [|fuel]; [unfold GoString.len in Hf; cbn in Hf; lia|].
    cbn [GoString.TrimLeftSpace_go].
    unfold asciiSpace in Hc.
    assert ((GoString.byte c <? 128)%N = true) as Hlt.
    { apply N.ltb_lt. unfold GoString.between in Hc.
      apply orb_true_iff in Hc as [Hc|Hc].
      - apply andb_true_iff in Hc as [_ Hc]. apply N.leb_le in Hc. lia.
      - apply N.eqb_eq in Hc. lia. }
    unfold GoString.DecodeRune. rewrite Hlt.
    assert (GoString.IsSpace (GoString.byte c) = true) as ->.
    { unfold GoString.IsSpace. apply orb_true_iff in Hc as [-> | ->]; [done|].
      by rewrite orb_true_r. }
    apply IH; [unfold GoString.len in *; cbn in Hf; lia|done].
Qed.

Lemma TrimSpace_allSpace s : allSpace s = true -> GoString.TrimSpace s = EmptyString.
Proof.
  intros Ha. unfold GoString.TrimSpace.
  rewrite (TrimLeftSpace_allSpace s (GoString.len s)); [reflexivity|lia|done].
Qed.

(** X16. With the root namespace set, an input of ASCII white space only,
    the empty input included, is answered by the empty text and no error,
    and the parser is not consulted. *)
Theorem X16_blank_input_is_returned_empty `{GoLib} `{GoParser} rootDirName goStructs :
  rootDirName <> EmptyString ->
  allSpace goStructs = true ->
  Convert rootDirName goStructs = Done (EmptyString, None).
Proof.
  intros Hr Ha. unfold Convert. apply String.eqb_neq in Hr.
  by rewrite Hr, (TrimSpace_allSpace _ Ha).
Qed.

(** * Further properties of the aggregation *)

Section AggregatorMore.
Context `{GoOS}.
Variable rootDirName : string.

(** X17. Whenever [ReadTypes] returns an error, the text it returns with it
    is empty: a failure in any file discards what earlier files gave. *)
Theorem X17_ReadTypes_error_has_no_text packagePath txt e :
  ReadTypes rootDirName packagePath = Done (txt, Some e) -> txt = EmptyString.
Proof.
  unfold ReadTypes.
  destruct (String.eqb rootDirName EmptyString); [by intros [= <-]|].
  destruct (os_Stat packagePath) as [err|[]].
  - destruct (os_IsNotExist err); [by intros [= <-]|discriminate].
  - cbn [negb]. destruct (os_ReadDir packagePath) as [err|files]; [by intros [= <-]|].
    destruct (readFiles _ _ _) as [[err|st]|w]; cbn; [by intros [= <-]| |discriminate].
    destruct (_ =? 0)%nat; discriminate.
  - cbn [negb]. by intros [= <-].
Qed.

Lemma readFiles_passedOver packagePath f rest st :
  passedOver packagePath f ->
  readFiles packagePath (f :: rest) st = readFiles packagePath rest st.
Proof.
  intros [Hext|Hdir]; cbn [readFiles].
  - apply String.eqb_neq in Hext. by rewrite Hext.
  - destruct (negb _); [reflexivity|]. by rewrite Hdir.
Qed.

(** X18. A directory entry whose extension is not .go, or that is itself a
    directory, has no effect on the aggregation, wherever it stands in the
    listing: it is neither read nor parsed, and the result is that of the
    listing without it. *)
Theorem X18_passed_over_entries packagePath f pre post st :
  passedOver packagePath f ->
  readFiles packagePath (pre ++ f :: post) st = readFiles packagePath (pre ++ post) st.
Proof.
  intros Hp. revert st. induction pre as [|g pre IH]; intros st.
  - by apply readFiles_passedOver.
  - cbn [app readFiles].
    destruct (negb _); [apply IH|].
    destruct (os_Stat _) as [err|[]]; [reflexivity|apply IH|].
    destruct (parseFile _ _) as [err|astFile]; [reflexivity|].
    destruct (findStructs astFile g st) as [st1|w]; cbn; [apply IH|reflexivity].
Qed.

Lemma readFiles_all_passedOver packagePath files st :
  Forall (passedOver packagePath) files ->
  readFiles packagePath files st = Done (inr st).
Proof.
  induction 1 as [|f files Hf _ IH]; [reflexivity|].
  by rewrite readFiles_passedOver.
Qed.

(** X19. On a directory that holds no source file (it is empty, or all its
    entries have another extension or are directories) the aggregation
    succeeds with the empty text. *)
Theorem X19_directory_without_sources packagePath files :
  rootDirName <> EmptyString ->
  os_Stat packagePath = inr true ->
  os_ReadDir packagePath = inr files ->
  Forall (passedOver packagePath) files ->
  ReadTypes rootDirName packagePath = Done (EmptyString, None).
Proof.
  intros Hr Hs Hd Hf. unfold ReadTypes. apply String.eqb_neq in Hr.
  rewrite Hr, Hs, Hd. cbn [negb].
  rewrite (readFiles_all_passedOver _ _ _ Hf). reflexivity.
Qed.

Lemma recordUsed_keys X Sel used used' :
  recordUsed X Sel used = Done used' ->
  exists k, X = Ident k /\ used' = <[k := Sel]> used.
Proof. destruct X; try discriminate. intros [= <-]. eauto. Qed.

Lemma recordUsedFields_keys fs : forall used used',
  recordUsedFields fs used = Done used' ->
  forall k, is_Some (used' !! k) <->
            is_Some (used !! k)
            \/ exists f sel, f ∈ fs /\ Type_ f = SelectorExpr (Ident k) sel.
Proof.
  induction fs as [|f fs IH]; intros used used'.
  - cbn. intros [= <-] k. split; [eauto|].
    intros [?|(f & sel & Hin & _)]; [done|]. by apply elem_of_nil in Hin.
  - cbn [recordUsedFields].
    destruct (Type_ f) as [| | | |X Sel| | | |] eqn:Ef;
      try (intros E k; rewrite (IH _ _ E k); split;
           [ intros [?|(g & sel & Hin & Hg)]; [by left|];
             right; exists g, sel; split; [by apply elem_of_cons; right|done]
           | intros [?|(g & sel & Hin & Hg)]; [by left|];
             apply elem_of_cons in Hin as [->|Hin]; [congruence|];
             right; by exists g, sel ]).
    destruct (recordUsed X Sel used) as [used1|w] eqn:E1; cbn; [|discriminate].
    apply recordUsed_keys in E1 as (k0 & -> & ->).
    intros E k. rewrite (IH _ _ E k). split.
    + intros [Hk|(g & sel & Hin & Hg)].
      * destruct (decide (k0 = k)) as [->|Hne].
        -- right. exists f, Sel. split; [by apply elem_of_cons; left|done].
        -- left. by rewrite lookup_insert_ne in Hk.
      * right. exists g, sel. split; [by apply elem_of_cons; right|done].
    + intros [Hk|(g & sel & Hin & Hg)].
      * left. destruct (decide (k0 = k)) as [->|Hne].
        -- rewrite lookup_insert_eq. eauto.
        -- by rewrite lookup_insert_ne.
      * apply elem_of_cons in Hin as [->|Hin].
        -- left. rewrite Ef in Hg. injection Hg as -> ->.
           rewrite lookup_insert_eq. eauto.
        -- right. by exists g, sel.
Qed.

(** X20. After the fields of a struct declaration have been inspected, an
    alias is in the used-imports registry exactly when it was there before
    or it qualifies the declared type of one of the fields directly. *)
Theorem X20_used_aliases_of_struct fs used used' k :
  recordUsedFields fs used = Done used' ->
  (is_Some (used' !! k) <->
   is_Some (used !! k)
   \/ exists f sel, f ∈ fs /\ Type_ f = SelectorExpr (Ident k) sel).
Proof. intros E. by apply recordUsedFields_keys. Qed.

Lemma recordUsedFields_none fs used :
  Forall (fun f => directSelector (Type_ f) = false) fs ->
  recordUsedFields fs used = Done used.
Proof.
  induction 1 as [|f fs Hf _ IH]; [reflexivity|].
  cbn [recordUsedFields]. by destruct (Type_ f).
Qed.

(** X21. A struct declaration none of whose fields has a qualified name as
    its declared type records no used import, even when qualified names
    occur below pointers, slices or maps: it adds its text to the buffer and
    leaves both registries as they are. *)
Theorem X21_nested_qualifiers_not_recorded filePath nm fs st :
  Forall (fun f => directSelector (Type_ f) = false) fs ->
  findVisit filePath (NTypeSpec nm (Some (StructType fs))) st
  = Done (mkAggState
            (addNode filePath (NTypeSpec nm (Some (StructType fs))) (convertBuf st))
            (imports st) (usedImports st), false).
Proof.
  intros Hf. cbn [findVisit]. by rewrite (recordUsedFields_none _ _ Hf).
Qed.

Lemma grows_refl a : grows a a.
Proof. split; [exists EmptyString; by rewrite app_empty_r|]. split; auto. Qed.

Lemma grows_trans a b c : grows a b -> grows b c -> grows a c.
Proof.
  intros ([s1 E1] & I1 & U1) ([s2 E2] & I2 & U2). split; [|split; auto].
  exists (s1 +:+ s2). by rewrite E2, E1, app_assoc_s.
Qed.

Lemma insert_keeps (m : gmap string string) k v j :
  is_Some (m !! j) -> is_Some (<[k := v]> m !! j).
Proof.
  intros Hj. destruct (decide (k = j)) as [->|Hne].
  - rewrite lookup_insert_eq. eauto.
  - by rewrite lookup_insert_ne.
Qed.

Lemma findVisit_grows filePath n st st' d :
  findVisit filePath n st = Done (st', d) -> grows st st'.
Proof.
  assert (forall buf, exists s, addNode filePath n buf = buf +:+ s) as Hadd.
  { intros buf. unfold addNode. rewrite ?app_assoc_s. eauto. }
  destruct n as [a b|a|a|a|a b|cs]; cbn [findVisit];
    try (intros [= <- <-]; apply grows_refl).
  - intros [= <- <-]. split; [exists EmptyString; by rewrite app_empty_r|].
    split; [|auto]. intros k. apply insert_keeps.
  - destruct b as [t|]; [|intros [= <- <-]; split; [apply Hadd|split; auto]].
    destruct t as [| | |fs|X Sel| | | |];
      try (intros [= <- <-]; split; [apply Hadd|split; auto]).
    + destruct (recordUsedFields fs (usedImports st)) as [used|w] eqn:E; cbn;
        [|discriminate].
      intros [= <- <-]. split; [apply Hadd|split; [auto|]].
      cbn. intros k Hk. apply (recordUsedFields_keys fs _ _ E k). by left.
    + destruct (recordUsed X Sel (usedImports st)) as [used|w] eqn:E; cbn;
        [|discriminate].
      apply recordUsed_keys in E as (k0 & -> & ->).
      intros [= <- <-]. split; [apply Hadd|split; [auto|]].
      cbn. intros k. apply insert_keeps.
Qed.

(** X22. [findStructs] only adds: after it, the buffer is the earlier buffer
    with text appended, and every alias that was declared or used before is
    still declared or used. *)
Theorem X22_findStructs_only_adds astFile filePath st st' :
  findStructs astFile filePath st = Done st' -> grows st st'.
Proof.
  apply (Inspect_preserves (findVisit filePath) grows grows_refl grows_trans).
  intros n a b d. apply findVisit_grows.
Qed.

End AggregatorMore.

(** ** Closed instances of the further properties *)

(** X2 at a slice of function types. *)
Lemma X2_writeType_fails_iff_unhandled_witness :
  exists e,
    @writeType plainLib EmptyString (ArrayType (OtherExpr "*ast.FuncType")) 0 false
    = Done (EmptyString, ArrayType (OtherExpr "*ast.FuncType"), e)
    /\ (is_Some e <-> unhandled (ArrayType (OtherExpr "*ast.FuncType")) = true).
Proof.
  eexists. split; [vm_compute; reflexivity|].
  eapply (@X2_writeType_fails_iff_unhandled plainLib
            (ArrayType (OtherExpr "*ast.FuncType")) EmptyString 0 false).
  vm_compute. reflexivity.
Defined.

(** X3 at a field with the tag `json`. *)
Lemma X3_writeFields_only_tag_errors_witness :
  exists cause,
    Bubble (Some structtag.errTagSyntax) "could not parse struct tag"
    = Bubble (Some cause) "could not parse struct tag".
Proof.
  apply (@X3_writeFields_only_tag_errors plainLib
           [mkField ["A"] (Ident "int") (Some (bq +:+ "json" +:+ bq))]
           EmptyString 0 EmptyString
           [mkField ["A"] (Ident "int") (Some (bq +:+ "json" +:+ bq))]).
  vm_compute. reflexivity.
Defined.

(** X4 at the struct of the User declaration. *)
Lemma X4_writeType_returns_when_calm_witness :
  exists r, @writeType plainLib EmptyString (StructType user_fields) (-1) false = Done r.
Proof.
  apply (@X4_writeType_returns_when_calm plainLib). vm_compute. reflexivity.
Defined.

(** X5 at a field Secret string `json:"-"` after the field Name. *)
Lemma X5_omit_sentinel_field_skipped_witness :
  let shown := mkField ["Name"] (Ident "string") (Some (jsonTag "name")) in
  let secret := mkField ["Secret"] (Ident "string") (Some (jsonTag "-")) in
  output (@writeFields plainLib EmptyString ([shown] ++ secret :: []) 0)
  = output (@writeFields plainLib EmptyString ([shown] ++ []) 0).
Proof.
  intros shown secret.
  apply (@X5_omit_sentinel_field_skipped plainLib secret (jsonTag "-")
           [structtag.mkTag "json" "-" []] (structtag.mkTag "json" "-" [])).
  - reflexivity.
  - reflexivity.
  - vm_compute. lia.
  - vm_compute. reflexivity.
  - reflexivity.
  - reflexivity.
Defined.

(** X7 at the field Addr struct { City string }. *)
Lemma X7_struct_field_line_witness :
  let inner := [mkField ["City"] (Ident "string") None] in
  @writeFields plainLib EmptyString [mkField ["Addr"] (StructType inner) None] 0
  = ('(b', rest', err) ←
       @writeFields plainLib
         (EmptyString +:+ indent 0 +:+ @quoteName plainLib "Addr" +:+ optMark false
          +:+ ": {" +:+ nl +:+ ("    City: string;" +:+ nl) +:+ indent 0 +:+ "};;"
          +:+ nl) [] 0;
     Done (b', mkField ["Addr"] (StructType inner) None :: rest', err)).
Proof.
  intros inner.
  apply (@X7_struct_field_line plainLib ["Addr"] inner None "Addr" false
           EmptyString 0 [] ("    City: string;" +:+ nl) inner None).
  - vm_compute. reflexivity.
  - vm_compute. reflexivity.
Defined.

(** X8 at a slice of pointers to int. *)
Lemma X8_pointer_slice_map_texts_witness :
  @writeType plainLib EmptyString (ArrayType (StarExpr (Ident "int"))) 0 false
  = Done ("(number | undefined)[]", ArrayType (StarExpr (Ident "int")), None).
Proof.
  destruct (@X8_pointer_slice_map_texts plainLib 0) as (P & A & _).
  apply (A (StarExpr (Ident "int")) "(number | undefined)"
           (StarExpr (Ident "int")) false EmptyString).
  - reflexivity.
  - apply (P (Ident "int") "number" (Ident "int") true EmptyString). reflexivity.
Defined.

(** X10 at a name with a dash. *)
Lemma X10_ascii_name_quoting_witness :
  @quoteName plainLib "user-id" = sq +:+ "user-id" +:+ sq.
Proof.
  apply (@X10_ascii_name_quoting plainLib "user-id"). reflexivity.
Defined.

(** X11 at a field with the tag `json` between two good fields. *)
Lemma X11_bad_tag_stops_field_loop_witness :
  let good := mkField ["Name"] (Ident "string") (Some (jsonTag "name")) in
  let bad := mkField ["A"] (Ident "int") (Some (bq +:+ "json" +:+ bq)) in
  let late := mkField ["Age"] (StarExpr (Ident "int")) None in
  @writeFields plainLib EmptyString ([good] ++ bad :: [late]) 0
  = Done ("  name: string;" +:+ nl, [good] ++ bad :: [late],
          Some (Bubble (Some structtag.errTagSyntax) "could not parse struct tag")).
Proof.
  intros good bad late.
  apply (@X11_bad_tag_stops_field_loop plainLib bad).
  - vm_compute. reflexivity.
  - vm_compute. reflexivity.
Defined.

(** X12 at the tree with a comment and two declarations, the output
    already holding a line. *)
Lemma X12_traversal_only_appends_witness :
  let st := mkConvertState "// generated" EmptyString true false None in
  exists st',
    Inspect (@convertVisit plainLib "app") comment_tree st = Done st'
    /\ exists s, ts st' = ts st +:+ s.
Proof.
  intros st. eexists. split; [vm_compute; reflexivity|].
  apply (@X12_traversal_only_appends plainLib "app" comment_tree st).
  vm_compute. reflexivity.
Defined.

(** X13 at a failing declaration between two good ones. *)
Lemma X13_failing_declaration_aborts_witness :
  let bad := ArrayType (OtherExpr "*ast.FuncType") in
  let parsed :=
    wrapped [typeDecl "A" (Ident "int"); typeDecl "T" bad;
             typeDecl "B" (Ident "bool")] in
  exists txt err,
    @ConvertParsed plainLib "app" parsed = Done (txt, err)
    /\ txt = EmptyString /\ is_Some err.
Proof.
  intros bad parsed. eexists. eexists. split; [vm_compute; reflexivity|].
  apply (@X13_failing_declaration_aborts plainLib "app" parsed "T" bad).
  - reflexivity.
  - unfold parsed, wrapped, File, FuncDecl, BlockStmt, DeclStmt, typeDecl, GenDecl.
    cbn [map].
    eapply Within_child; [apply list_elem_of_further, list_elem_of_here|].
    eapply Within_child;
      [apply list_elem_of_further, list_elem_of_further, list_elem_of_here|].
    eapply Within_child; [apply list_elem_of_further, list_elem_of_here|].
    eapply Within_child; [apply list_elem_of_here|].
    eapply Within_child; [apply list_elem_of_here|].
    apply Within_here.
  - vm_compute. reflexivity.
Defined.

(** X14 at a call with the root namespace unset. *)
Lemma X14_Convert_error_has_no_text_witness :
  exists txt e,
    @Convert plainLib EmptyString (declParser id_src id_tree) id_src
    = Done (txt, Some e)
    /\ txt = EmptyString.
Proof.
  eexists. eexists. split; [vm_compute; reflexivity|].
  eapply (@X14_Convert_error_has_no_text plainLib EmptyString
            (declParser id_src id_tree) id_src).
  vm_compute. reflexivity.
Defined.

(** X15 at two declarations. *)
Lemma X15_blank_line_between_declarations_witness :
  @ConvertParsed plainLib "app"
    (wrapped [typeDecl "A" (Ident "int"); typeDecl "B" (ArrayType (Ident "string"))])
  = Done ("export type A = number" +:+ nl +:+ nl +:+ "export type B = string[]",
          None).
Proof.
  apply (@X15_blank_line_between_declarations plainLib "app"
           [("A", Ident "int", "number");
            ("B", ArrayType (Ident "string"), "string[]")]).
  repeat constructor; eexists; vm_compute; reflexivity.
Defined.

(** X16 at an input of a space, a tab and a newline. *)
Lemma X16_blank_input_is_returned_empty_witness :
  @Convert plainLib "app" (declParser id_src id_tree) (" " +:+ tab +:+ nl)
  = Done (EmptyString, None).
Proof.
  apply (@X16_blank_input_is_returned_empty plainLib (declParser id_src id_tree)).
  - discriminate.
  - reflexivity.
Defined.

(** X17 at a missing path. *)
Lemma X17_ReadTypes_error_has_no_text_witness :
  exists txt e,
    @ReadTypes sampleOS "app" "/missing" = Done (txt, Some e) /\ txt = EmptyString.
Proof.
  eexists. eexists. split; [vm_compute; reflexivity|].
  eapply (@X17_ReadTypes_error_has_no_text sampleOS "app" "/missing").
  vm_compute. reflexivity.
Defined.

(** X18 at the directory entry vendor.go of /pkg. *)
Lemma X18_passed_over_entries_witness :
  let st := mkAggState EmptyString ∅ ∅ in
  @readFiles sampleOS "/pkg" (["README.md"] ++ "vendor.go" :: []) st
  = @readFiles sampleOS "/pkg" (["README.md"] ++ []) st.
Proof.
  intros st.
  apply (@X18_passed_over_entries sampleOS "/pkg" "vendor.go").
  right. reflexivity.
Defined.

(** X19 at the directory /pkg. *)
Lemma X19_directory_without_sources_witness :
  @ReadTypes sampleOS "app" "/pkg" = Done (EmptyString, None).
Proof.
  apply (@X19_directory_without_sources sampleOS "app" "/pkg"
           ["README.md"; "vendor.go"]).
  - discriminate.
  - reflexivity.
  - reflexivity.
  - constructor; [left; vm_compute; discriminate|].
    constructor; [right; reflexivity|]. constructor.
Defined.

(** X20 at the fields of the Order declaration and the alias time. *)
Lemma X20_used_aliases_of_struct_witness :
  is_Some ((<["time" := "Time"]> ∅ : gmap string string) !! "time")
  <-> is_Some ((∅ : gmap string string) !! "time")
      \/ exists f sel, f ∈ order_fields
                       /\ Type_ f = SelectorExpr (Ident "time") sel.
Proof.
  apply (X20_used_aliases_of_struct order_fields ∅ (<["time" := "Time"]> ∅) "time").
  reflexivity.
Defined.

(** X21 at a struct whose only field is a pointer to a qualified name. *)
Lemma X21_nested_qualifiers_not_recorded_witness :
  let fs := [mkField ["By"] (StarExpr (SelectorExpr (Ident "models") "User")) None] in
  let st := mkAggState EmptyString ∅ ∅ in
  @findVisit sampleOS "order.go" (NTypeSpec "Order" (Some (StructType fs))) st
  = Done (mkAggState
            (@addNode sampleOS "order.go"
               (NTypeSpec "Order" (Some (StructType fs))) EmptyString)
            ∅ ∅, false).
Proof.
  intros fs st.
  apply (@X21_nested_qualifiers_not_recorded sampleOS "order.go" "Order" fs st).
  repeat constructor.
Defined.

(** X22 at the source file with one import and the Order declaration. *)
Lemma X22_findStructs_only_adds_witness :
  let st := mkAggState "// head" (<["fmt" := "fmt"]> ∅) ∅ in
  exists st',
    @findStructs sampleOS order_file "order.go" st = Done st' /\ grows st st'.
Proof.
  intros st. eexists. split; [reflexivity|].
  apply (@X22_findStructs_only_adds sampleOS order_file "order.go" st).
  reflexivity.
Defined.

(** * The emitted field lines, the tree after the pass, declared arrays and imports *)

(** ** The tree after the emission pass *)

Section UnwrapFacts.
Context `{GoLib}.

Lemma writeFields_unwraps_from fs :
  Forall (fun f => unwraps (pointee (Type_ f))) fs ->
  forall b d b' fs' e,
    writeFields_with writeType_rec fs b d = Done (b', fs', e) -> UnwrapFields fs fs'.
Proof.
  induction 1 as [|f fs Hf _ IH]; intros b d b' fs' e.
  - cbn. intros [= <- <- <-]. constructor.
  - rewrite writeFields_with_cons.
    destruct (fieldHead f) as [|e0|w|name opt] eqn:Hh.
    + destruct (writeFields_with writeType_rec fs b d) as [[[o r] e1]|w] eqn:E;
        cbn; [|discriminate].
      intros [= <- <- <-]. apply UnwrapFields_skip; [done|by eapply IH].
    + intros [= <- <- <-]. by eapply UnwrapFields_fail.
    + discriminate.
    + cbn zeta.
      destruct (writeType_rec (pointee (Type_ f)) _ d false)
        as [[[o t'] e1]|w] eqn:E1; cbn -[String.append]; [|discriminate].
      destruct (writeFields_with writeType_rec fs _ d) as [[[o2 r] e2]|w] eqn:E2;
        cbn; [|discriminate].
      intros [= <- <- <-]. destruct f as [n t tg].
      eapply UnwrapFields_emit; [exact Hh|by eapply Hf|by eapply IH].
Qed.

Lemma unwraps_all (t : Expr) : unwraps t /\ unwraps (pointee t).
Proof.
  revert t.
  apply (Expr_nested_ind (fun t => unwraps t /\ unwraps (pointee t))).
  - intros n. split; intros b d p b' t' e; cbn; intros [= <- <- <-]; by constructor.
  - intros x [IH _]. split; [|exact IH]. intros b d p b' t' e.
    cbn -[String.append].
    destruct (writeType_rec x _ d false) as [[[o x'] [e1|]]|w] eqn:E;
      cbn -[String.append]; intros [= <- <- <-];
      apply Unwrap_star; by eapply IH.
  - intros x [IH _].
    assert (unwraps (ArrayType x)) as A; [|by split].
    intros b d p b' t' e. cbn -[String.append].
    destruct (isByteIdent x) eqn:Hb; [intros [= <- <- <-]; by apply Unwrap_bytes|].
    destruct (writeType_rec x _ d true) as [[[o x'] [e1|]]|w] eqn:E;
      cbn -[String.append]; intros [= <- <- <-];
      (apply Unwrap_array; [done|by eapply IH]).
  - intros fs IH.
    assert (unwraps (StructType fs)) as A; [|by split].
    intros b d p b' t' e. cbn -[String.append].
    destruct (writeFields_with writeType_rec fs _ (d + 1))
      as [[[o r] e1]|w] eqn:E; cbn -[String.append]; intros [= <- <- <-].
    apply Unwrap_struct. eapply writeFields_unwraps_from; [|exact E].
    eapply Forall_impl; [exact IH|]. by intros f [_ ?].
  - intros x s _. split; intros b d p b' t' e; cbn -[String.append];
      intros [= <- <- <-]; by constructor.
  - intros k v [IHk _] [IHv _].
    assert (unwraps (MapType k v)) as A; [|by split].
    intros b d p b' t' e. cbn -[String.append].
    destruct (writeType_rec k _ d false) as [[[o k'] e1]|w] eqn:Ek;
      cbn -[String.append]; [|discriminate].
    pose proof (writeType_error_iff k _ _ _ _ _ _ Ek) as Hk.
    destruct e1 as [e1|].
    + intros [= <- <- <-]. apply Unwrap_map_key; [|by eapply IHk].
      apply Hk. eauto.
    + assert (unhandled k = false) as Hu.
      { destruct (unhandled k); [|done].
        destruct Hk as [_ Hk]. by destruct (Hk eq_refl) as [? [=]]. }
      destruct (writeType_rec v _ d false) as [[[o2 v'] [e2|]]|w] eqn:Ev;
        cbn -[String.append]; intros [= <- <- <-];
        (apply Unwrap_map; [done|by eapply IHk|by eapply IHv]).
  - split; intros b d p b' t' e; cbn -[String.append]; intros [= <- <- <-];
      by constructor.
  - split; intros b d p b' t' e; cbn -[String.append]; intros [= <- <- <-];
      by constructor.
  - intros dt. split; intros b d p b' t' e; cbn -[String.append];
      intros [= <- <- <-]; by constructor.
Qed.

Lemma Unwrap_leadingStars t t' : Unwrap t t' -> leadingStars t' = leadingStars t.
Proof.
  induction 1 as [t L| x x' _ IH| | | | |]; try reflexivity.
  cbn. by rewrite IH.
Qed.

Lemma Unwrap_not_wrapped T T' : Unwrap T T' -> T' <> StarExpr T.
Proof.
  intros U E. apply Unwrap_leadingStars in U. rewrite E in U. cbn in U. lia.
Qed.

Lemma UnwrapFields_names_tags fs :
  forall fs', UnwrapFields fs fs' ->
  map Names fs' = map Names fs /\ map Tag fs' = map Tag fs.
Proof.
  induction fs as [|f fs IH]; intros fs' U; inversion U; subst; try done.
  - match goal with U' : UnwrapFields fs _ |- _ =>
      destruct (IH _ U') as [E1 E2] end.
    cbn. by rewrite E1, E2.
  - match goal with U' : UnwrapFields fs _ |- _ =>
      destruct (IH _ U') as [E1 E2] end.
    cbn. by rewrite E1, E2.
Qed.

Lemma UnwrapFields_functional_from fs :
  Forall (fun f => forall t1 t2, Unwrap (pointee (Type_ f)) t1 ->
                                 Unwrap (pointee (Type_ f)) t2 -> t1 = t2) fs ->
  forall fs1 fs2, UnwrapFields fs fs1 -> UnwrapFields fs fs2 -> fs1 = fs2.
Proof.
  induction 1 as [|f fs Hf _ IH]; intros fs1 fs2 U1 U2.
  - inversion U1. by inversion U2.
  - inversion U1; subst; inversion U2; subst; try congruence.
    + f_equal. by apply IH.
    + cbn [Type_] in Hf. f_equal; [|by apply IH].
      f_equal. by apply Hf.
Qed.

(** the relation leaves one tree only *)
Lemma Unwrap_functional (t : Expr) :
  (forall t1 t2, Unwrap t t1 -> Unwrap t t2 -> t1 = t2)
  /\ (forall t1 t2, Unwrap (pointee t) t1 -> Unwrap (pointee t) t2 -> t1 = t2).
Proof.
  revert t.
  apply (Expr_nested_ind
           (fun t => (forall t1 t2, Unwrap t t1 -> Unwrap t t2 -> t1 = t2)
                     /\ (forall t1 t2, Unwrap (pointee t) t1 ->
                                       Unwrap (pointee t) t2 -> t1 = t2))).
  - intros n. split; intros t1 t2 U1 U2; inversion U1; by inversion U2.
  - intros x [IH _]. split; [|exact IH].
    intros t1 t2 U1 U2. inversion U1; subst; [discriminate|].
    inversion U2; subst; [discriminate|]. f_equal. by apply IH.
  - intros x [IH _].
    assert (forall t1 t2, Unwrap (ArrayType x) t1 -> Unwrap (ArrayType x) t2 ->
                          t1 = t2) as A; [|by split].
    intros t1 t2 U1 U2.
    inversion U1; subst; try discriminate; inversion U2; subst;
      try discriminate; try congruence.
    f_equal. by apply IH.
  - intros fs IH.
    assert (forall t1 t2, Unwrap (StructType fs) t1 -> Unwrap (StructType fs) t2 ->
                          t1 = t2) as A; [|by split].
    intros t1 t2 U1 U2.
    inversion U1; subst; try discriminate; inversion U2; subst; try discriminate.
    f_equal. eapply UnwrapFields_functional_from; [|done..].
    eapply Forall_impl; [exact IH|]. by intros f [_ ?].
  - intros x s _. split; intros t1 t2 U1 U2; inversion U1; by inversion U2.
  - intros k v [IHk _] [IHv _].
    assert (forall t1 t2, Unwrap (MapType k v) t1 -> Unwrap (MapType k v) t2 ->
                          t1 = t2) as A; [|by split].
    intros t1 t2 U1 U2.
    inversion U1; subst; try discriminate; inversion U2; subst;
      try discriminate; try congruence.
    + f_equal; [by apply IHk|by apply IHv].
    + f_equal. by apply IHk.
  - split; intros t1 t2 U1 U2; inversion U1; by inversion U2.
  - split; intros t1 t2 U1 U2; inversion U1; by inversion U2.
  - intros dt. split; intros t1 t2 U1 U2; inversion U1; by inversion U2.
Qed.

Lemma Unwrap_leaf_inv t t' : isLeaf t = true -> Unwrap t t' -> t' = t.
Proof. intros L U. inversion U; subst; try reflexivity; discriminate L. Qed.

(** C9. The emission pass does change the tree, in one way only. The field
    list it leaves is the one related to the original by [UnwrapFields]: a
    field that is skipped is kept as it is; at a field whose tag does not
    parse the pass stops and that field and all later ones are kept as they
    are; an emitted field keeps its names and its tag, and its type is the
    one left by compiling the pointee of its declared type. So an emitted
    field of declared type pointer to T ends with the type T (with the same
    replacement done inside T where T holds struct types), never with the
    pointer type it had; when T has no type below it, the type is T itself.
    The relation leaves one tree only, and the type node returned by
    [writeType] is related to the one it was given in the same way. *)
Theorem C9_pass_unwraps_emitted_pointer_fields :
  (forall b fs d b' fs' e,
     writeFields b fs d = Done (b', fs', e) ->
     UnwrapFields fs fs'
     /\ map Names fs' = map Names fs /\ map Tag fs' = map Tag fs)
  /\ (forall names T tag name opt b d pre pre' b1 rest b' fs' e,
        fieldHead (mkField names (StarExpr T) tag) = Emit name opt ->
        writeFields b pre d = Done (b1, pre', None) ->
        writeFields b (pre ++ mkField names (StarExpr T) tag :: rest) d
        = Done (b', fs', e) ->
        exists T' rest',
          fs' = pre' ++ mkField names T' tag :: rest'
          /\ Unwrap T T' /\ T' <> StarExpr T
          /\ (isLeaf T = true -> T' = T))
  /\ (forall fs fs1 fs2, UnwrapFields fs fs1 -> UnwrapFields fs fs2 -> fs1 = fs2)
  /\ (forall b t d p b' t' e,
        writeType b t d p = Done (b', t', e) -> Unwrap t t').
Proof.
  split; [|split; [|split]].
  - intros b fs d b' fs' e E.
    assert (UnwrapFields fs fs') as U.
    { eapply writeFields_unwraps_from; [|exact E].
      apply Forall_forall. intros f _. apply unwraps_all. }
    split; [exact U|by apply UnwrapFields_names_tags].
  - intros names T tag name opt b d pre pre' b1 rest b' fs' e Hh Hpre.
    rewrite writeFields_app, Hpre. cbn -[writeFields].
    unfold writeFields. rewrite writeFields_with_cons, Hh. cbn -[String.append].
    destruct (writeType_rec T _ d false) as [[[o T'] e1]|w] eqn:ET;
      cbn -[String.append]; [|discriminate].
    destruct (writeFields_with writeType_rec rest _ d) as [[[o2 r] e2]|w];
      cbn; [|discriminate].
    intros [= <- <- <-]. exists T', r. split; [done|].
    assert (Unwrap T T') as U by (by eapply (proj1 (unwraps_all T))).
    split; [exact U|]. split; [by apply Unwrap_not_wrapped|].
    intros L. by apply Unwrap_leaf_inv.
  - intros fs fs1 fs2. apply UnwrapFields_functional_from.
    apply Forall_forall. intros f _. apply Unwrap_functional.
  - intros b t d p b' t' e E. by eapply (proj1 (unwraps_all t)).
Qed.
End UnwrapFacts.

(** ** The line of an emitted field *)

Section FieldLines.
Context `{GoLib}.

Lemma HasOption_elem (jt : structtag.Tag) (o : string) :
  structtag.HasOption jt o = bool_decide (o ∈ structtag.Options jt).
Proof.
  unfold structtag.HasOption.
  induction (structtag.Options jt) as [|x l IH]; [reflexivity|].
  cbn [existsb]. rewrite IH.
  destruct (String.eqb o x) eqn:E.
  - apply String.eqb_eq in E as ->. symmetry. apply bool_decide_eq_true.
    apply elem_of_cons. by left.
  - apply String.eqb_neq in E. cbn [orb].
    apply bool_decide_ext. rewrite elem_of_cons. split; [by right|].
    by intros [?|?].
Qed.

Lemma fieldHead_json f v tags jt :
  exported (fieldName f) = true ->
  Tag f = Some v ->
  (2 <= GoString.len v)%nat ->
  structtag.Parse (String.substring 1 (GoString.len v - 2) v)
  = structtag.ParseOk tags ->
  structtag.Get tags "json" = Some jt ->
  structtag.Name jt <> "-" ->
  fieldHead f
  = Emit (jsonName (fieldName f) jt)
         (bool_decide ("omitempty" ∈ structtag.Options jt)).
Proof.
  intros He Ht Hl Hp Hg Hn. unfold fieldHead. rewrite He, Ht. cbn [negb].
  assert ((GoString.len v <? 2)%nat = false) as -> by (apply Nat.ltb_ge; lia).
  rewrite Hp, Hg. cbn zeta.
  apply String.eqb_neq in Hn. rewrite Hn, HasOption_elem.
  unfold jsonName. by destruct (structtag.Name jt).
Qed.

Lemma fieldHead_no_json f :
  exported (fieldName f) = true ->
  (Tag f = None
   \/ exists v tags,
        Tag f = Some v /\ (2 <= GoString.len v)%nat
        /\ structtag.Parse (String.substring 1 (GoString.len v - 2) v)
           = structtag.ParseOk tags
        /\ structtag.Get tags "json" = None) ->
  fieldHead f = Emit (fieldName f) false.
Proof.
  intros He [Ht|(v & tags & Ht & Hl & Hp & Hg)]; unfold fieldHead;
    rewrite He, Ht; cbn [negb]; [done|].
  assert ((GoString.len v <? 2)%nat = false) as -> by (apply Nat.ltb_ge; lia).
  by rewrite Hp, Hg.
Qed.

(** the line of an emitted field alone and between other fields *)
Lemma emitted_line names ty tag name opt d txt ty' e :
  fieldHead (mkField names ty tag) = Emit name opt ->
  writeType EmptyString (pointee ty) d false = Done (txt, ty', e) ->
  let f := mkField names ty tag in
  let line := indent d +:+ quoteName name +:+ optMark (isStar ty || opt)
              +:+ ": " +:+ txt +:+ ";" +:+ nl in
  (forall b, writeFields b [f] d = Done (b +:+ line, [mkField names ty' tag], None))
  /\ (forall b pre b1 pre' rest out rest' err,
        writeFields b pre d = Done (b1, pre', None) ->
        writeFields EmptyString rest d = Done (out, rest', err) ->
        writeFields b (pre ++ f :: rest) d
        = Done (b1 +:+ line +:+ out, pre' ++ mkField names ty' tag :: rest', err)).
Proof.
  intros Hh HT f line.
  assert (forall b rest out rest' err,
            writeFields EmptyString rest d = Done (out, rest', err) ->
            writeFields b (f :: rest) d
            = Done (b +:+ line +:+ out, mkField names ty' tag :: rest', err)) as A.
  { intros b rest out rest' err Hr. unfold f.
    rewrite (field_line _ _ _ _ _ _ _ _ _ _ _ Hh HT).
    rewrite writeFields_appends, Hr. cbn -[String.append].
    unfold line. by rewrite <- !app_assoc_s. }
  split.
  - intros b. rewrite (A b [] EmptyString [] None eq_refl).
    by rewrite app_empty_r.
  - intros b pre b1 pre' rest out rest' err Hpre Hrest.
    rewrite writeFields_app, Hpre. cbn -[String.append writeFields].
    by rewrite (A b1 rest out rest' err Hrest).
Qed.

(** C3. A field of declared type pointer to T that is emitted at all, with
    whatever optional flag its tag gives, contributes exactly the line:
    indentation, the (possibly quoted) name, the marker ?, a colon and a
    space, the text the type compiler produces for T, a semicolon and a
    newline. This holds for the field alone and for the field between other
    fields: the line comes right after the text of the fields before it and
    right before the text of the fields after it. The line with
    " | undefined" put before the semicolon is not what is written. *)
Theorem C3_pointer_field_line names T tag name opt d txt T' e :
  fieldHead (mkField names (StarExpr T) tag) = Emit name opt ->
  writeType EmptyString T d false = Done (txt, T', e) ->
  let f := mkField names (StarExpr T) tag in
  let line := indent d +:+ quoteName name +:+ "?: " +:+ txt +:+ ";" +:+ nl in
  (forall b, writeFields b [f] d = Done (b +:+ line, [mkField names T' tag], None))
  /\ (forall b pre b1 pre' rest out rest' err,
        writeFields b pre d = Done (b1, pre', None) ->
        writeFields EmptyString rest d = Done (out, rest', err) ->
        writeFields b (pre ++ f :: rest) d
        = Done (b1 +:+ line +:+ out, pre' ++ mkField names T' tag :: rest', err))
  /\ (forall b,
        output (writeFields b [f] d)
        <> Done (b +:+ indent d +:+ quoteName name +:+ "?: " +:+ txt
                 +:+ " | undefined;" +:+ nl, None)).
Proof.
  intros Hh HT f line.
  destruct (emitted_line names (StarExpr T) tag name opt d txt T' e Hh HT)
    as [A B].
  cbn [isStar orb optMark] in A, B.
  change ("?" +:+ ": " +:+ txt +:+ ";" +:+ nl) with ("?: " +:+ txt +:+ ";" +:+ nl)
    in A, B.
  split; [exact A|]. split; [exact B|].
  intros b. unfold f. rewrite A. cbn [output]. intros [= E].
  unfold line in E. do 5 apply app_inv_head_s in E. discriminate E.
Qed.

(** X6. An exported field whose declared type is not a pointer, whose tag
    parses and has a json key with a name other than -, contributes exactly
    the line: indentation (depth+1 units), the name of the key (the Go name
    when the key gives none), quoted if needed, the marker ? exactly when
    omitempty is among the options of the key, a colon and a space, the text
    the type compiler produces for the type, a semicolon and a newline;
    alone and between other fields. An exported field without tag, or whose
    tag has no json key, contributes the line with its Go name and without
    the marker. *)
Theorem X6_plain_field_line f d txt ty' e :
  isStar (Type_ f) = false ->
  exported (fieldName f) = true ->
  writeType EmptyString (Type_ f) d false = Done (txt, ty', e) ->
  let line (name : string) (optional : bool) :=
    indent d +:+ quoteName name +:+ optMark optional
    +:+ ": " +:+ txt +:+ ";" +:+ nl in
  let writes (l : string) :=
    (forall b,
       writeFields b [f] d = Done (b +:+ l, [mkField (Names f) ty' (Tag f)], None))
    /\ (forall b pre b1 pre' rest out rest' err,
          writeFields b pre d = Done (b1, pre', None) ->
          writeFields EmptyString rest d = Done (out, rest', err) ->
          writeFields b (pre ++ f :: rest) d
          = Done (b1 +:+ l +:+ out,
                  pre' ++ mkField (Names f) ty' (Tag f) :: rest', err)) in
  (forall v tags jt,
     Tag f = Some v ->
     (2 <= GoString.len v)%nat ->
     structtag.Parse (String.substring 1 (GoString.len v - 2) v)
     = structtag.ParseOk tags ->
     structtag.Get tags "json" = Some jt ->
     structtag.Name jt <> "-" ->
     writes (line (jsonName (fieldName f) jt)
                  (bool_decide ("omitempty" ∈ structtag.Options jt))))
  /\ ((Tag f = None
       \/ exists v tags,
            Tag f = Some v /\ (2 <= GoString.len v)%nat
            /\ structtag.Parse (String.substring 1 (GoString.len v - 2) v)
               = structtag.ParseOk tags
            /\ structtag.Get tags "json" = None) ->
      writes (line (fieldName f) false)).
Proof.
  intros Hs He HT line writes.
  assert (pointee (Type_ f) = Type_ f) as Hp by (by destruct (Type_ f)).
  assert (forall name opt, fieldHead f = Emit name opt -> writes (line name opt)) as W.
  { intros name opt Hh. destruct f as [names ty tag]. cbn [Type_ Names Tag] in *.
    rewrite <- Hp in HT.
    pose proof (emitted_line names ty tag name opt d txt ty' e Hh HT) as L.
    cbn zeta in L. rewrite Hs in L. exact L. }
  split.
  - intros v tags jt Ht Hl Hparse Hg Hn. apply W.
    by eapply fieldHead_json.
  - intros Hno. apply W. by apply fieldHead_no_json.
Qed.
End FieldLines.

(** ** Declared array types *)

Section DeclaredArrays.
Context `{GoLib}.
Variable rootDirName : string.

(** the translation of a unit that holds one type declaration *)
Lemma ConvertParsed_single nm t :
  isInterfaceType (Some t) = false ->
  ConvertParsed rootDirName (wrapped [typeDecl nm t])
  = match writeType EmptyString t (-1) false with
    | Done (txt, _, None) => Done (declText nm txt, None)
    | Done (_, _, Some e) =>
        Done (EmptyString, Some (Bubble (Some e) "could not write type"))
    | Panic w => Panic w
    end.
Proof.
  intros Hi. unfold ConvertParsed, wrapped, File, FuncDecl, FuncType, FieldList,
    BlockStmt, DeclStmt, typeDecl, GenDecl.
  cbn [map].
  rewrite Inspect_other. cbn [convertVisit mbind Res_bind bind walkList].
  rewrite (Inspect_leaf _ (NIdent "main")) by done. cbn [convertVisit mbind Res_bind bind].
  rewrite Inspect_other. cbn [convertVisit mbind Res_bind bind walkList].
  rewrite (Inspect_leaf _ (NIdent "main")) by done. cbn [convertVisit mbind Res_bind bind].
  rewrite Inspect_other. cbn [convertVisit mbind Res_bind bind walkList].
  rewrite Inspect_other. cbn [convertVisit mbind Res_bind bind walkList].
  rewrite Inspect_other. cbn [convertVisit mbind Res_bind bind walkList].
  rewrite Inspect_other. cbn [convertVisit mbind Res_bind bind walkList].
  rewrite Inspect_other. cbn [convertVisit mbind Res_bind bind walkList].
  rewrite (Inspect_leaf _ (NTypeSpec nm (Some t))) by done.
  unfold convertVisit. rewrite Hi.
  cbn -[String.append writeType].
  rewrite writeType_appends.
  destruct (writeType EmptyString t (-1) false) as [[[txt t'] [e|]]|w];
    cbn -[String.append]; try reflexivity.
  unfold declText, tsTypePrefix. by rewrite <- !app_assoc_s.
Qed.

(** C4. The declaration [type ID []byte], accepted by the parser at its
    third attempt, is translated to [export type ID = string]. Every declared
    array type takes the type-specification path, where the type compiler is
    applied to it: a declared slice of bytes, whatever its name, gives
    [export type <name> = string]; a declared array of another element type
    gives [export type <name> = <compiled element>[]], the element compiled
    as the type compiler compiles it below an array. The named-array text,
    with or without the space before the braces, is never what a declared
    array type is translated to. *)
Theorem C4_declared_array_is_compiled `{GoParser} (nm : string) (elt : Expr) :
  (rootDirName <> EmptyString ->
   (exists e, ParseExprFrom id_src = inl e) ->
   (exists e, ParseFile id_src = inl e) ->
   ParseFile (wrapper id_src) = inr id_tree ->
   Convert rootDirName id_src = Done ("export type ID = string", None))
  /\ (isByteIdent elt = true ->
      ConvertParsed rootDirName (wrapped [typeDecl nm (ArrayType elt)])
      = Done ("export type " +:+ nm +:+ " = string", None))
  /\ (forall etxt elt',
        isByteIdent elt = false ->
        writeType EmptyString elt (-1) true = Done (etxt, elt', None) ->
        ConvertParsed rootDirName (wrapped [typeDecl nm (ArrayType elt)])
        = Done ("export type " +:+ nm +:+ " = " +:+ etxt +:+ "[]", None))
  /\ (forall out e,
        ConvertParsed rootDirName (wrapped [typeDecl nm (ArrayType elt)])
        = Done (out, e) ->
        out <> "export type " +:+ nm +:+ " extends Array<" +:+ exprString elt
               +:+ "> {}"
        /\ out <> "export type " +:+ nm +:+ " extends Array<" +:+ exprString elt
                  +:+ ">{}").
Proof.
  split; [|split; [|split]].
  - intros Hroot E1 E2 E3.
    rewrite (Convert_wrapped rootDirName id_src id_tree Hroot
               TrimSpace_id_src ltac:(discriminate) E1 E2 E3).
    change id_tree with (wrapped [typeDecl "ID" (ArrayType (Ident "byte"))]).
    by rewrite ConvertParsed_single.
  - intros Hb. rewrite ConvertParsed_single by done.
    unfold writeType. cbn -[String.append]. by rewrite Hb.
  - intros etxt elt' Hb He. rewrite ConvertParsed_single by done.
    unfold writeType in *. cbn -[String.append]. by rewrite Hb, He.
  - intros out e. rewrite ConvertParsed_single by done.
    destruct (writeType EmptyString (ArrayType elt) (-1) false)
      as [[[txt t'] [e0|]]|w]; [| |discriminate].
    + intros [= <- <-]. split; intros E; rewrite app_cons_s in E;
        discriminate E.
    + intros [= <- <-]. unfold declText.
      split; intros E; do 2 apply app_inv_head_s in E; discriminate E.
Qed.
End DeclaredArrays.

(** ** Import declarations *)

Section ImportLines.
Context `{GoLib}.
Variable rootDirName : string.















End ImportLines.

(** ** Closed instances *)

(** C3 at the pointer field Boss, between two fields before it and one after. *)
Lemma C3_pointer_field_line_witness :
  @writeFields plainLib "{" staff_fields 0
  = Done ("{" +:+ "  ID: number;" +:+ nl +:+ "  nick?: string;" +:+ nl
          +:+ "  boss?: string;" +:+ nl +:+ "  Note: string;" +:+ nl,
          [ mkField ["ID"] (Ident "int") None;
            mkField ["Nick"] (Ident "string") (Some (jsonTag "nick,omitempty"));
            mkField ["Boss"] (Ident "string") (Some (jsonTag "boss"));
            mkField ["Note"] (Ident "string") None ],
          None).
Proof.
  refine (proj1 (proj2 (@C3_pointer_field_line plainLib ["Boss"] (Ident "string")
            (Some (jsonTag "boss")) "boss" false 0 "string" (Ident "string") None
            _ _))
          "{"
          [ mkField ["ID"] (Ident "int") None;
            mkField ["Nick"] (Ident "string") (Some (jsonTag "nick,omitempty")) ]
          ("{" +:+ "  ID: number;" +:+ nl +:+ "  nick?: string;" +:+ nl)
          [ mkField ["ID"] (Ident "int") None;
            mkField ["Nick"] (Ident "string") (Some (jsonTag "nick,omitempty")) ]
          [ mkField ["Note"] (Ident "string") None ]
          ("  Note: string;" +:+ nl)
          [ mkField ["Note"] (Ident "string") None ]
          None _ _); vm_compute; reflexivity.
Defined.

(** X6 at the field Nick, tagged with omitempty, between other fields, and
    at the untagged field Note. *)
Lemma X6_plain_field_line_witness :
  @writeFields plainLib "{" staff_fields 0
  = Done ("{" +:+ "  ID: number;" +:+ nl +:+ "  nick?: string;" +:+ nl
          +:+ "  boss?: string;" +:+ nl +:+ "  Note: string;" +:+ nl,
          [ mkField ["ID"] (Ident "int") None;
            mkField ["Nick"] (Ident "string") (Some (jsonTag "nick,omitempty"));
            mkField ["Boss"] (Ident "string") (Some (jsonTag "boss"));
            mkField ["Note"] (Ident "string") None ],
          None)
  /\ @writeFields plainLib EmptyString [mkField ["Note"] (Ident "string") None] 1
     = Done ("    Note: string;" +:+ nl, [mkField ["Note"] (Ident "string") None],
             None).
Proof.
  split.
  - refine (proj2 (proj1 (@X6_plain_field_line plainLib
              (mkField ["Nick"] (Ident "string") (Some (jsonTag "nick,omitempty")))
              0 "string" (Ident "string") None _ _ _)
              (jsonTag "nick,omitempty")
              [structtag.mkTag "json" "nick" ["omitempty"]]
              (structtag.mkTag "json" "nick" ["omitempty"]) _ _ _ _ _)
            "{"
            [ mkField ["ID"] (Ident "int") None ]
            ("{" +:+ "  ID: number;" +:+ nl)
            [ mkField ["ID"] (Ident "int") None ]
            [ mkField ["Boss"] (StarExpr (Ident "string")) (Some (jsonTag "boss"));
              mkField ["Note"] (Ident "string") None ]
            ("  boss?: string;" +:+ nl +:+ "  Note: string;" +:+ nl)
            [ mkField ["Boss"] (Ident "string") (Some (jsonTag "boss"));
              mkField ["Note"] (Ident "string") None ]
            None _ _);
      first [ discriminate | vm_compute; reflexivity | vm_compute; lia ].
  - refine (proj1 (proj2 (@X6_plain_field_line plainLib
              (mkField ["Note"] (Ident "string") None)
              1 "string" (Ident "string") None _ _ _) _) EmptyString);
      first [ left; reflexivity | vm_compute; reflexivity ].
Defined.

(** C4 at the declaration of the scenario, at a slice of bytes of another
    name and at a slice of pointers. *)
Lemma C4_declared_array_is_compiled_witness :
  @Convert plainLib "app" (declParser id_src id_tree) id_src
  = Done ("export type ID = string", None)
  /\ @ConvertParsed plainLib "app" (wrapped [typeDecl "Key" (ArrayType (Ident "byte"))])
     = Done ("export type Key = string", None)
  /\ @ConvertParsed plainLib "app"
       (wrapped [typeDecl "Ages" (ArrayType (StarExpr (Ident "int")))])
     = Done ("export type Ages = (number | undefined)[]", None)
  /\ "export type Ages = (number | undefined)[]"
     <> "export type " +:+ "Ages" +:+ " extends Array<"
        +:+ @exprString plainLib (StarExpr (Ident "int")) +:+ "> {}".
Proof.
  split; [|split; [|split]].
  - apply (proj1 (@C4_declared_array_is_compiled plainLib "app"
                    (declParser id_src id_tree) "ID" (Ident "byte"))).
    + discriminate.
    + eexists. vm_compute. reflexivity.
    + eexists. vm_compute. reflexivity.
    + vm_compute. reflexivity.
  - apply (proj1 (proj2 (@C4_declared_array_is_compiled plainLib "app"
                    (declParser id_src id_tree) "Key" (Ident "byte")))).
    reflexivity.
  - apply (proj1 (proj2 (proj2 (@C4_declared_array_is_compiled plainLib "app"
                    (declParser id_src id_tree) "Ages" (StarExpr (Ident "int")))))
             "(number | undefined)" (StarExpr (Ident "int"))).
    + reflexivity.
    + vm_compute. reflexivity.
  - refine (proj1 (proj2 (proj2 (proj2 (@C4_declared_array_is_compiled plainLib "app"
                    (declParser id_src id_tree) "Ages" (StarExpr (Ident "int")))))
             "export type Ages = (number | undefined)[]" None _)).
    vm_compute. reflexivity.
Defined.


(** C9 at the four fields of [staff_fields]. *)
Lemma C9_pass_unwraps_emitted_pointer_fields_witness :
  @UnwrapFields plainLib staff_fields
    [ mkField ["ID"] (Ident "int") None;
      mkField ["Nick"] (Ident "string") (Some (jsonTag "nick,omitempty"));
      mkField ["Boss"] (Ident "string") (Some (jsonTag "boss"));
      mkField ["Note"] (Ident "string") None ]
  /\ exists T' rest',
       [ mkField ["ID"] (Ident "int") None;
         mkField ["Nick"] (Ident "string") (Some (jsonTag "nick,omitempty"));
         mkField ["Boss"] (Ident "string") (Some (jsonTag "boss"));
         mkField ["Note"] (Ident "string") None ]
       = [ mkField ["ID"] (Ident "int") None;
           mkField ["Nick"] (Ident "string") (Some (jsonTag "nick,omitempty")) ]
         ++ mkField ["Boss"] T' (Some (jsonTag "boss")) :: rest'
       /\ @Unwrap plainLib (Ident "string") T'
       /\ T' <> StarExpr (Ident "string")
       /\ (isLeaf (Ident "string") = true -> T' = Ident "string").
Proof.
  split.
  - refine (proj1 (proj1 (@C9_pass_unwraps_emitted_pointer_fields plainLib)
              "{" staff_fields 0
              ("{" +:+ "  ID: number;" +:+ nl +:+ "  nick?: string;" +:+ nl
               +:+ "  boss?: string;" +:+ nl +:+ "  Note: string;" +:+ nl)
              _ None _)).
    vm_compute. reflexivity.
  - refine (proj1 (proj2 (@C9_pass_unwraps_emitted_pointer_fields plainLib))
              ["Boss"] (Ident "string") (Some (jsonTag "boss")) "boss" false
              "{" 0
              [ mkField ["ID"] (Ident "int") None;
                mkField ["Nick"] (Ident "string") (Some (jsonTag "nick,omitempty")) ]
              [ mkField ["ID"] (Ident "int") None;
                mkField ["Nick"] (Ident "string") (Some (jsonTag "nick,omitempty")) ]
              ("{" +:+ "  ID: number;" +:+ nl +:+ "  nick?: string;" +:+ nl)
              [ mkField ["Note"] (Ident "string") None ]
              ("{" +:+ "  ID: number;" +:+ nl +:+ "  nick?: string;" +:+ nl
               +:+ "  boss?: string;" +:+ nl +:+ "  Note: string;" +:+ nl)
              _ None _ _ _); vm_compute; reflexivity.
Defined.
